(** * Abracadabra: conditional-chain-to-switch conversion and occurrence
    extraction

  A shallow embedding of
  [src/refactorings/convert-if-else-to-switch/convert-if-else-to-switch.ts]
  and of the occurrence classifier of the "extract variable" refactoring
  (second part of the same source file).

  The syntax tree is an inductive type; the private fields of the
  [IfElseToSwitch] class are a record threaded through its methods;
  throwing getters return a [sum]; the editor prompt is a function to
  [option]. *)

From Stdlib Require Import String List ZArith Bool Lia Arith DecimalString.
Import ListNotations.
Local Open Scope string_scope.

Set Warnings "-register-all".

(** ** Syntax tree *)

Module Ast.

(** Babel source positions: lines start at 1, columns at 0. *)
Record AstPosition : Type := mkAstPosition { line : Z; column : Z }.

Record SourceLocation : Type :=
  mkSourceLocation { start : AstPosition; end_ : AstPosition }.

(** A literal-text segment of a template literal: [value.raw] and the
    optional source range every node carries. *)
Record TemplateElement : Type :=
  templateElementAt { raw : string; elementLoc : option SourceLocation }.

(** [t.templateElement(raw)]: a freshly built node has no source range. *)
Definition templateElement (r : string) : TemplateElement :=
  templateElementAt r None.

(** Expression kinds used by the two transformations.  Source ranges are
    kept on the nodes whose range the code reads (conditional statements
    and template elements).  Expressions hold no statements: function
    bodies are left out. *)
Inductive Expression : Type :=
| Identifier (name : string)
| StringLiteral (value : string)
| NumericLiteral (value : Z)
| BinaryExpression (operator : string) (left right : Expression)
| MemberExpression (object property : Expression) (computed : bool)
| CallExpression (callee : Expression) (arguments : list Expression)
| TemplateLiteral (quasis : list TemplateElement)
                  (expressions : list Expression)
| JSXText (value : string).

Record SwitchCaseOf (S : Type) : Type :=
  switchCase { caseTest : option Expression; caseConsequent : list S }.
Arguments switchCase {S} _ _.
Arguments caseTest {S} _.
Arguments caseConsequent {S} _.

Inductive Statement : Type :=
| IfStatement (loc : option SourceLocation) (test : Expression)
              (consequent : Statement) (alternate : option Statement)
| SwitchStatement (discriminant : Expression)
                  (cases : list (SwitchCaseOf Statement))
| BlockStatement (body : list Statement)
| ReturnStatement (argument : option Expression)
| BreakStatement
| ExpressionStatement (expression : Expression).

Definition SwitchCase : Type := SwitchCaseOf Statement.

(** [ast.switchStatement], [ast.breakStatement]: node builders. *)
Definition switchStatement (d : Expression) (cs : list SwitchCase)
  : Statement := SwitchStatement d cs.
Definition breakStatement : Statement := BreakStatement.

Definition isIfStatement (s : Statement) : bool :=
  match s with IfStatement _ _ _ _ => true | _ => false end.

Definition isSwitchStatement (s : Statement) : bool :=
  match s with SwitchStatement _ _ => true | _ => false end.

Definition isReturnStatement (s : Statement) : bool :=
  match s with ReturnStatement _ => true | _ => false end.

(** Modelled from the spec: [ast.getStatements] is not in the source
    tree.  "Each link's statement body becomes a case": the statements of
    a block, or the statement itself. *)
Definition getStatements (statement : Statement) : list Statement :=
  match statement with
  | BlockStatement body => body
  | _ => [statement]
  end.

(** Modelled from the spec: [ast.hasFinalReturn] is not in the source
    tree.  "the body already ends in a return". *)
Definition hasFinalReturn (statements : list Statement) : bool :=
  match last (map Some statements) None with
  | Some s => isReturnStatement s
  | None => false
  end.

End Ast.

Import Ast.

Definition Program : Type := list Statement.
Definition Code : Type := string.

(** ** Positions and selections of the editor *)

Module Editor.

(** Editor positions: lines and characters start at 0. *)
Record Position : Type := mkPosition { line : Z; character : Z }.

(** Modelled from the spec: [Position.fromAST] is not in the source tree.
    "Position: (line, character), 0- or 1-indexed consistently": the
    parser counts lines from 1, the editor from 0. *)
Definition Position_fromAST (p : AstPosition) : Position :=
  mkPosition (Ast.line p - 1) (Ast.column p).

(** Modelled from the spec: the comparisons of the [Position] class are
    not in the source tree.  Positions are ordered by line, then by
    character. *)
Definition isSameLineThan (p q : Position) : bool := (line p =? line q)%Z.

(** Modelled from the spec: [Position.isBefore], not in the source tree;
    the order of positions, strict. *)
Definition isBefore (p q : Position) : bool :=
  ((line p <? line q)
   || ((line p =? line q) && (character p <? character q)))%Z.

(** Modelled from the spec: [Position.isEqualTo], not in the source
    tree. *)
Definition isEqualTo (p q : Position) : bool :=
  ((line p =? line q) && (character p =? character q))%Z.

(** Modelled from the spec: [Position.isSameOrBefore], not in the source
    tree; the order of positions ("start <= end"). *)
Definition isSameOrBefore (p q : Position) : bool :=
  isBefore p q || isEqualTo p q.

Record Selection : Type := mkSelection { start : Position; end_ : Position }.

(** Modelled from the spec: [Selection.fromAST] is not in the source
    tree.  "Selection: ordered pair of Positions": the two ends of the
    source range, as editor positions. *)
Definition Selection_fromAST (loc : SourceLocation) : Selection :=
  mkSelection (Position_fromAST (Ast.start loc))
              (Position_fromAST (Ast.end_ loc)).

(** An empty selection: the cursor. *)
Definition cursorAt (l c : Z) : Selection :=
  mkSelection (mkPosition l c) (mkPosition l c).

(** Modelled from the spec: [Selection.isMultiLines] is not in the source
    tree.  "single-line/multi-line classification": the two ends are on
    different lines. *)
Definition isMultiLines (s : Selection) : bool :=
  negb (isSameLineThan (start s) (end_ s)).

(** Modelled from the spec: [Selection.isEmpty] is not in the source
    tree.  "emptiness": the two ends coincide. *)
Definition isEmpty (s : Selection) : bool := isEqualTo (start s) (end_ s).

(** Modelled from the spec: [Selection.height] is not in the source tree;
    the number of line breaks the selection spans. *)
Definition height (s : Selection) : Z := (line (end_ s) - line (start s))%Z.

(** Modelled from the spec: [Selection.isInside] is not in the source
    tree.  "containment tests": [this] lies within [other], ends
    included. *)
Definition isInside (this other : Selection) : bool :=
  isSameOrBefore (start other) (start this)
  && isSameOrBefore (end_ this) (end_ other).

(** Modelled from the spec: containment in "a node's source range"; a
    node is selectable when it carries one ("Each node carries an
    optional source range"). *)
Definition isInsideLoc (this : Selection) (loc : option SourceLocation)
  : bool :=
  match loc with
  | Some l => isInside this (Selection_fromAST l)
  | None => false
  end.

(** Modelled from the spec: [Selection.isInsideNode] is not in the source
    tree; containment in the range of a template element. *)
Definition isInsideNode (this : Selection) (quasi : TemplateElement) : bool :=
  isInsideLoc this (elementLoc quasi).

(** Modelled from the spec: [Selection.isInsidePath] is not in the source
    tree; containment in the range of the statement at the path. *)
Definition isInsidePath (this : Selection) (node : Statement) : bool :=
  match node with
  | IfStatement loc _ _ _ => isInsideLoc this loc
  | _ => false
  end.

End Editor.

(** ** Capabilities taken as parameters

    Operations the file imports from [../../ast] and
    [../../editor/selection] whose code is not in the source tree and
    whose exact behaviour the specification leaves open: the decomposition
    of a test into [{ discriminant, test }] (or [null]), the equality of
    two expressions, the parser and the printer, and the test that a
    selection matches a node. *)
Class Capability : Type := {
  toSwitch : Expression -> option (Expression * Expression);
  areEqual : Expression -> Expression -> bool;
  parse : Code -> Program;
  print : Program -> Code;
  isInsidePath : Editor.Selection -> Statement -> bool
}.

(** ** The [IfElseToSwitch] class *)

Module IfElseToSwitch.

(** The mutable fields; [path] never changes and is passed along. *)
Record State : Type := mkState {
  discriminant : option Expression;
  cases : list SwitchCase;
  canConvertAllBranches : bool
}.

(** Field initialisers of the class. *)
Definition init : State :=
  {| discriminant := None; cases := []; canConvertAllBranches := true |}.

Definition setDiscriminant (d : Expression) (this : State) : State :=
  {| discriminant := Some d;
     cases := cases this;
     canConvertAllBranches := canConvertAllBranches this |}.

Definition clearCanConvertAllBranches (this : State) : State :=
  {| discriminant := discriminant this;
     cases := cases this;
     canConvertAllBranches := false |}.

Definition pushCase (c : SwitchCase) (this : State) : State :=
  {| discriminant := discriminant this;
     cases := cases this ++ [c];
     canConvertAllBranches := canConvertAllBranches this |}.

(** What a later state keeps from an earlier one: a cleared flag and a
    discriminant that is set. *)
Definition preserves (s s' : State) : Prop :=
  (canConvertAllBranches s = false -> canConvertAllBranches s' = false)
  /\ (forall d, discriminant s = Some d -> discriminant s' = Some d).

(** The statement list of a case: kept verbatim when it ends in a return,
    otherwise with a break appended. *)
Definition caseBody (statement : Statement) : list Statement :=
  let statements := getStatements statement in
  if hasFinalReturn statements
  then statements
  else statements ++ [breakStatement].

Definition addCase (test : option Expression) (statement : Statement)
           (this : State) : State :=
  pushCase (switchCase test (caseBody statement)) this.

Definition addDefault (statement : Statement) (this : State) : State :=
  addCase None statement this.

Section Methods.
Context {cap : Capability}.

(** [convertConsequent(statement)], on the [test] and [consequent] of the
    statement.  After [if (!this.discriminant) this.discriminant =
    discriminant] the field is set, and [areEqual] is called on it. *)
Definition convertConsequent (test : Expression) (consequent : Statement)
           (this : State) : State :=
  match toSwitch test with
  | None => clearCanConvertAllBranches this
  | Some (discriminant', test') =>
      let this1 :=
        match discriminant this with
        | None => setDiscriminant discriminant' this
        | Some _ => this
        end in
      let shared :=
        match discriminant this1 with
        | Some d => d
        | None => discriminant'
        end in
      let this2 :=
        if areEqual shared discriminant'
        then this1
        else clearCanConvertAllBranches this1 in
      addCase (Some test') consequent this2
  end.

(** [convertAlternate({ alternate })], with the recursive call to
    [convertNode] passed in. *)
Definition convertAlternate (convertNode : Statement -> State -> State)
           (alternate : option Statement) (this : State) : State :=
  match alternate with
  | None => this
  | Some alt =>
      if isIfStatement alt
      then convertNode alt this
      else addDefault alt this
  end.

(** [convertNode(node)]; [node] is typed [ast.IfStatement], the last
    branch is never taken from [convert] or [convertAlternate]. *)
Fixpoint convertNode (node : Statement) (this : State) : State :=
  match node with
  | IfStatement _ test consequent alternate =>
      convertAlternate convertNode alternate
        (convertConsequent test consequent this)
  | _ => this
  end.

(** [new IfElseToSwitch(path).convert()], with [node = path.node]. *)
Definition convert (node : Statement) : Statement :=
  let this := convertNode node init in
  match discriminant this with
  | Some d =>
      if canConvertAllBranches this
      then switchStatement d (cases this)
      else node
  | None => node
  end.

(** The states of the object after each link of the chain, in order. *)
Fixpoint trace (node : Statement) (this : State) : list State :=
  match node with
  | IfStatement _ test consequent alternate =>
      let this1 := convertConsequent test consequent this in
      this1 ::
      match alternate with
      | None => []
      | Some alt =>
          if isIfStatement alt
          then trace alt this1
          else [addDefault alt this1]
      end
  | _ => []
  end.

End Methods.

End IfElseToSwitch.

(** ** The chain of a conditional statement, as the specification reads it *)

Module Chain.

(** The links of a chain in source order: test and body of each [if] and
    [else if]. *)
Fixpoint links (node : Statement) : list (Expression * Statement) :=
  match node with
  | IfStatement _ test consequent alternate =>
      (test, consequent) ::
      match alternate with
      | Some alt => links alt
      | None => []
      end
  | _ => []
  end.

(** The body of the trailing [else] that has no test, if any. *)
Fixpoint trailingElse (node : Statement) : option Statement :=
  match node with
  | IfStatement _ _ _ (Some alt) =>
      if isIfStatement alt then trailingElse alt else Some alt
  | _ => None
  end.

Section Decomposition.
Context {cap : Capability}.

(** The link's test decomposes into an equality check against [d]. *)
Definition decomposesAgainst (d : Expression)
           (link : Expression * Statement) : bool :=
  match toSwitch (fst link) with
  | Some (d', _) => areEqual d d'
  | None => false
  end.

Definition decomposes (link : Expression * Statement) : bool :=
  match toSwitch (fst link) with
  | Some _ => true
  | None => false
  end.

(** The discriminant of the first link that decomposes. *)
Fixpoint firstDiscriminant (ls : list (Expression * Statement))
  : option Expression :=
  match ls with
  | [] => None
  | link :: rest =>
      match toSwitch (fst link) with
      | Some (d, _) => Some d
      | None => firstDiscriminant rest
      end
  end.

(** The case a decomposed link becomes. *)
Definition caseOfLink (link : Expression * Statement) : SwitchCase :=
  switchCase (option_map snd (toSwitch (fst link)))
             (IfElseToSwitch.caseBody (snd link)).

Definition defaultCase (statement : Statement) : SwitchCase :=
  switchCase None (IfElseToSwitch.caseBody statement).

(** The cases of the switch the specification describes: one per link in
    source order, then [default] for the trailing [else]. *)
Definition switchCases (node : Statement) : list SwitchCase :=
  map caseOfLink (links node)
  ++ match trailingElse node with
     | Some statement => [defaultCase statement]
     | None => []
     end.

End Decomposition.

End Chain.

(** ** Traversal and the transformation orchestrator *)

Module Transformation.

Record Transformed : Type :=
  mkTransformed { code : Code; hasCodeChanged : bool }.

(** Nesting depth of a statement: the longest path of statements below
    and including it. *)
Fixpoint depth (s : Statement) : nat :=
  match s with
  | IfStatement _ _ consequent alternate =>
      S (Nat.max (depth consequent)
                 (match alternate with Some alt => depth alt | None => 0 end))
  | SwitchStatement _ cases =>
      S (list_max
           (map (fun c => list_max (map depth (caseConsequent c))) cases))
  | BlockStatement body => S (list_max (map depth body))
  | _ => 1
  end.

(** Modelled from the spec: one step of the traversal of [ast.transform],
    not in the source tree; the traversal goes on into the statements
    below a visited node. *)
Definition descend (visit : Statement -> Statement) (s : Statement)
  : Statement :=
  match s with
  | IfStatement loc test consequent alternate =>
      IfStatement loc test (visit consequent) (option_map visit alternate)
  | SwitchStatement d cases =>
      SwitchStatement d
        (map (fun c => switchCase (caseTest c) (map visit (caseConsequent c)))
             cases)
  | BlockStatement body => BlockStatement (map visit body)
  | _ => s
  end.

(** Modelled from the spec: the traversal of [ast.transform] is not in
    the source tree.  "Traverse top-down": the visitor runs on a node
    before the nodes below it; the node it leaves at the path (the
    replacement, if it replaced the node) is the one whose children are
    traversed next.  [fuel] bounds the depth that is traversed. *)
Fixpoint traverseStatement (IfStatementVisitor : Statement -> Statement)
         (fuel : nat) (s : Statement) : Statement :=
  match fuel with
  | O => s
  | S fuel' =>
      let node := if isIfStatement s then IfStatementVisitor s else s in
      descend (traverseStatement IfStatementVisitor fuel') node
  end.

(** Modelled from the spec: the traversal of a whole program, each
    statement with the fuel its depth asks for. *)
Definition traverse (IfStatementVisitor : Statement -> Statement)
           (program : Program) : Program :=
  map (fun s => traverseStatement IfStatementVisitor (depth s) s) program.

Section WithCapability.
Context {cap : Capability}.

(** Modelled from the spec: [ast.transform] is not in the source tree.
    "parse(text) -> tree; traverse(tree, visitor) ->
    {possiblyModifiedText, didChange}": the text is parsed, the tree
    traversed and printed, and a change is one of the printed text. *)
Definition transform (code : Code)
           (IfStatementVisitor : Statement -> Statement) : Transformed :=
  let ast := parse code in
  let before := print ast in
  let newCode := print (traverse IfStatementVisitor ast) in
  {| code := newCode; hasCodeChanged := negb (String.eqb newCode before) |}.

End WithCapability.

End Transformation.

(** ** The refactoring: [convertIfElseToSwitch] and [hasIfElseToConvert] *)

Module ConvertIfElseToSwitch.
Import Transformation.

(** What the operation asks of the editor. *)
Inductive EditorCall : Type :=
| showError_DidNotFoundIfElseToConvert
| write (code : Code).

Section WithCapability.
Context {cap : Capability}.
Variable selection : Editor.Selection.

(** The visitor of [hasChildWhichMatchesSelection] on one conditional
    statement: [true] when it sets [result = true] and stops.
    [convertedNode === childPath.node] holds exactly when [convert] did
    not build a switch statement. *)
Definition childMatches (childPath : Statement) : bool :=
  if negb (isInsidePath selection childPath) then false
  else
    let convertedNode := IfElseToSwitch.convert childPath in
    if negb (isSwitchStatement convertedNode) then false
    else true.

(** [path.traverse] of that visitor over a statement and all statements
    below it; [||] stops at the first hit, as [childPath.stop()] does. *)
Fixpoint matchesSelection (s : Statement) : bool :=
  match s with
  | IfStatement _ _ consequent alternate =>
      childMatches s
      || matchesSelection consequent
      || match alternate with
         | Some alt => matchesSelection alt
         | None => false
         end
  | SwitchStatement _ cases =>
      existsb (fun c => existsb matchesSelection (caseConsequent c)) cases
  | BlockStatement body => existsb matchesSelection body
  | _ => false
  end.

(** Neither the statement nor a statement below it is a match. *)
Definition noMatch (s : Statement) : Prop := matchesSelection s = false.

(** [hasChildWhichMatchesSelection(path, selection)]: the traversal
    covers the statements below [path], not [path] itself. *)
Definition hasChildWhichMatchesSelection (path : Statement) : bool :=
  match path with
  | IfStatement _ _ consequent alternate =>
      matchesSelection consequent
      || match alternate with
         | Some alt => matchesSelection alt
         | None => false
         end
  | SwitchStatement _ cases =>
      existsb (fun c => existsb matchesSelection (caseConsequent c)) cases
  | BlockStatement body => existsb matchesSelection body
  | _ => false
  end.

(** The [IfStatement(path)] visitor of [updateCode]; the result is the
    node at [path] when the visitor returns. *)
Definition IfStatementVisitor (path : Statement) : Statement :=
  if negb (isInsidePath selection path) then path
  else if hasChildWhichMatchesSelection path then path
  else IfElseToSwitch.convert path.

Definition updateCode (code : Code) : Transformed :=
  transform code IfStatementVisitor.

Definition hasIfElseToConvert (code : Code) : bool :=
  hasCodeChanged (updateCode code).

Definition convertIfElseToSwitch (code : Code) : EditorCall :=
  let updatedCode := updateCode code in
  if negb (hasCodeChanged updatedCode)
  then showError_DidNotFoundIfElseToConvert
  else write (Transformation.code updatedCode).

End WithCapability.

End ConvertIfElseToSwitch.

(** ** One-hole contexts: where a nested statement sits *)

Module Context.






End Context.

(** ** Occurrences of the expression to extract *)

Module Occurrence.

(** Failure of a throwing getter or constructor, with its message. *)
Definition Result (A : Type) : Type := (string + A)%type.

Definition ret {A} (a : A) : Result A := inr a.
Definition throw {A} (message : string) : Result A := inl message.

Definition bind {A B} (r : Result A) (k : A -> Result B) : Result B :=
  match r with
  | inl message => inl message
  | inr a => k a
  end.

Notation "x <- r ;; k" := (bind r (fun x => k))
  (at level 61, r at next level, right associativity).

Definition quote : string := String (Ascii.ascii_of_nat 34) EmptyString.

(** The nodes a path can stand on. *)
Inductive Node : Type :=
| ExpressionNode (e : Expression)
| StatementNode (s : Statement)
| ObjectPropertyNode (key value : Expression).

(** A path: its node, the source range of the node ([path.node.loc]) and
    the parent node. *)
Record NodePath : Type :=
  mkNodePath { node : Node; nodeLoc : option SourceLocation; parent : Node }.

(** [path.replaceWith(node)] *)
Definition replaceWith (replacement : Node)
           (replacementLoc : option SourceLocation) (path : NodePath)
  : NodePath :=
  mkNodePath replacement replacementLoc (parent path).

Definition isMemberExpression (path : NodePath) : bool :=
  match node path with
  | ExpressionNode (MemberExpression _ _ _) => true
  | _ => false
  end.

Definition isStringLiteral (path : NodePath) : bool :=
  match node path with
  | ExpressionNode (StringLiteral _) => true
  | _ => false
  end.

Definition isTemplateLiteral (path : NodePath) : bool :=
  match node path with
  | ExpressionNode (TemplateLiteral _ _) => true
  | _ => false
  end.

Definition isJSXText (n : Node) : bool :=
  match n with
  | ExpressionNode (JSXText _) => true
  | _ => false
  end.

Definition quasis (n : Node) : list TemplateElement :=
  match n with
  | ExpressionNode (TemplateLiteral qs _) => qs
  | _ => []
  end.

Definition expressions (n : Node) : list Expression :=
  match n with
  | ExpressionNode (TemplateLiteral _ es) => es
  | _ => []
  end.

(** What the occurrences read of a [Variable] of [./variable]
    ([Variable] is a reserved word here). *)
Record Variable_ : Type :=
  mkVariable { name : Code; id : Code; length : Z; isValid : bool }.

(** [enum DestructureStrategy] of [./destructure-strategy]. *)
Inductive DestructureStrategy : Type := Destructure | Preserve.

Record Choice : Type :=
  mkChoice { label : string; value : DestructureStrategy }.

(** The editor, as far as an occurrence talks to it:
    "askUser(options) -> chosenValue | none". *)
Record Editor : Type := { askUser : list Choice -> option Choice }.

Record Modification : Type :=
  mkModification { modificationCode : Code;
                   modificationSelection : Editor.Selection }.

Record VariableDeclaration : Type :=
  mkVariableDeclaration { declarationName : Code; declarationValue : Code }.

(** Modelled from the spec: the [Parts] class of [./parts] is not in the
    source tree.  "splits that segment into a before-part and after-part
    ...; the extracted value becomes the exact substring between the
    split points": the split points are the selection's characters,
    counted from the start of the segment. *)
Record Parts : Type :=
  mkParts { partsCode : Code; partsSelection : Editor.Selection;
            partsOffset : Editor.Position }.

(** Modelled from the spec: the split points of [Parts], not in the source
    tree; the characters of the selection, counted from the offset. *)
Definition partsStart (p : Parts) : nat :=
  Z.to_nat (Editor.character (Editor.start (partsSelection p))
            - Editor.character (partsOffset p)).

(** Modelled from the spec: the second split point of [Parts]. *)
Definition partsEnd (p : Parts) : nat :=
  Z.to_nat (Editor.character (Editor.end_ (partsSelection p))
            - Editor.character (partsOffset p)).

(** Modelled from the spec: [Parts.before], the "before-part". *)
Definition before (p : Parts) : Code :=
  String.substring 0 (partsStart p) (partsCode p).

(** Modelled from the spec: [Parts.selected], "the exact substring
    between the split points". *)
Definition selected (p : Parts) : Code :=
  String.substring (partsStart p) (partsEnd p - partsStart p) (partsCode p).

(** Modelled from the spec: [Parts.after], the "after-part". *)
Definition after (p : Parts) : Code :=
  String.substring (partsEnd p) (String.length (partsCode p) - partsEnd p)
                   (partsCode p).

(** Operations imported from [../../../ast], [./variable] and the
    selection whose code is not in the source tree. *)
Class Dependencies : Type := {
  canBeShorthand : NodePath -> bool;
  ShorthandVariable : Node -> Node -> Variable_;
  MemberExpressionVariable : Node -> Node -> Variable_;
  StringLiteralVariable : Node -> Node -> Variable_;
  GenericVariable : Node -> Node -> Variable_;
  convertStringToTemplateLiteral :
    Node -> SourceLocation ->
    option SourceLocation * list TemplateElement * list Expression;
  isStrictlyInsidePath : Editor.Selection -> NodePath -> bool;
  isInsideNode : Editor.Selection -> TemplateElement -> bool;
  generate : Expression -> Code;
  print : Expression -> Code
}.

(** The classes of the file, as the tag of one record. *)
Inductive Class_ : Type :=
| OccurrenceClass
| ShorthandOccurrence
| MemberExpressionOccurrence (destructureStrategy : DestructureStrategy)
| PartialTemplateLiteralOccurrence (userSelection : Editor.Selection).

Record Occurrence : Type := mkOccurrence {
  class : Class_;
  path : NodePath;
  loc : SourceLocation;
  variable : Variable_
}.

Definition setVariable (v : Variable_) (this : Occurrence) : Occurrence :=
  mkOccurrence (class this) (path this) (loc this) v.

Definition setDestructureStrategy (s : DestructureStrategy)
           (this : Occurrence) : Occurrence :=
  match class this with
  | MemberExpressionOccurrence _ =>
      mkOccurrence (MemberExpressionOccurrence s) (path this) (loc this)
                   (variable this)
  | _ => this
  end.

Definition destructureStrategy (this : Occurrence)
  : option DestructureStrategy :=
  match class this with
  | MemberExpressionOccurrence s => Some s
  | _ => None
  end.

Definition selection (this : Occurrence) : Editor.Selection :=
  Editor.Selection_fromAST (loc this).

Section Classes.
Context {deps : Dependencies}.

(** *** [class Occurrence] *)

Definition Occurrence_new (path : NodePath) (loc : SourceLocation)
           (variable : Variable_) : Occurrence :=
  mkOccurrence OccurrenceClass path loc variable.

Definition Occurrence_modification (this : Occurrence) : Modification :=
  mkModification (id (variable this)) (selection this).

Definition Occurrence_positionOnExtractedId (this : Occurrence)
  : Editor.Position :=
  Editor.mkPosition
    (Editor.line (Editor.start (selection this))
     + Editor.height (selection this) + 1)
    (Editor.character (Editor.start (selection this))
     + length (variable this)).

Definition Occurrence_toVariableDeclaration (this : Occurrence)
           (code : Code) : VariableDeclaration :=
  mkVariableDeclaration
    (name (variable this))
    (if isJSXText (node (path this)) then quote ++ code ++ quote else code).

(** *** [class MemberExpressionOccurrence] *)

(** The field initialiser sets the strategy to [Destructure]. *)
Definition MemberExpressionOccurrence_new (path : NodePath)
           (loc : SourceLocation) (variable : Variable_) : Occurrence :=
  mkOccurrence (MemberExpressionOccurrence Destructure) path loc variable.

(** [this.path.node.object] and [this.path.node.computed]; the path is
    typed [NodePath<MemberExpression>]. *)
Definition parentObject (this : Occurrence) : Code :=
  match node (path this) with
  | ExpressionNode (MemberExpression object _ _) => generate object
  | _ => ""
  end.

Definition computed (this : Occurrence) : bool :=
  match node (path this) with
  | ExpressionNode (MemberExpression _ _ c) => c
  | _ => false
  end.

Definition MemberExpressionOccurrence_toVariableDeclaration
           (this : Occurrence) (code : Code) : VariableDeclaration :=
  if computed this then Occurrence_toVariableDeclaration this code
  else
    match destructureStrategy this with
    | Some Preserve => Occurrence_toVariableDeclaration this code
    | _ =>
        mkVariableDeclaration
          ("{ " ++ name (variable this) ++ " }")
          (parentObject this)
    end.

Definition choices (this : Occurrence) : list Choice :=
  [ mkChoice
      ("Destructure => `const { " ++ name (variable this) ++ " } = "
       ++ parentObject this ++ "`")
      Destructure;
    mkChoice
      ("Preserve => `const " ++ name (variable this) ++ " = "
       ++ parentObject this ++ "." ++ name (variable this) ++ "`")
      Preserve ].

(** [await editor.askUser([...])]: the pipeline resumes with the answer. *)
Definition MemberExpressionOccurrence_askModificationDetails
           (editor : Editor) (this : Occurrence) : Occurrence :=
  let choice := askUser editor (choices this) in
  match choice with
  | Some c => setDestructureStrategy (value c) this
  | None => this
  end.

(** *** [class PartialTemplateLiteralOccurrence] *)

Definition userSelection (this : Occurrence) : Editor.Selection :=
  match class this with
  | PartialTemplateLiteralOccurrence s => s
  | _ => selection this
  end.

(** [quasis.findIndex(...)]: [None] stands for [-1]. *)
Fixpoint findIndex {A} (f : A -> bool) (l : list A) : option nat :=
  match l with
  | [] => None
  | x :: l' =>
      if f x then Some 0
      else option_map S (findIndex f l')
  end.

(** The getter [selectedQuasi]: the element, its source range (it is
    selectable) and its index. *)
Definition selectedQuasi (this : Occurrence)
  : Result (TemplateElement * SourceLocation * nat) :=
  match findIndex (isInsideNode (userSelection this))
                  (quasis (node (path this))) with
  | None => throw "I can't find selected text in template elements"
  | Some index =>
      match nth_error (quasis (node (path this))) index with
      | Some result =>
          match elementLoc result with
          | Some l => ret (result, l, index)
          | None => throw "Template element is not selectable"
          end
      | None => throw "Template element is not selectable"
      end
  end.

(** The getter [parts]. *)
Definition parts (this : Occurrence) : Result Parts :=
  quasi <- selectedQuasi this ;;
  let '(result, l, _) := quasi in
  let offset := Editor.start (Editor.Selection_fromAST l) in
  ret (mkParts (raw result) (userSelection this) offset).

(** The constructor: [super(...)], then the variable is overridden. *)
Definition PartialTemplateLiteralOccurrence_new (path : NodePath)
           (loc : SourceLocation) (userSelection : Editor.Selection)
  : Result Occurrence :=
  let this :=
    mkOccurrence (PartialTemplateLiteralOccurrence userSelection) path loc
                 (GenericVariable (node path) (parent path)) in
  p <- parts this ;;
  ret (setVariable
         (StringLiteralVariable
            (ExpressionNode (StringLiteral (selected p)))
            (StatementNode (BlockStatement [])))
         this).

Definition PartialTemplateLiteralOccurrence_toVariableDeclaration
           (this : Occurrence) : Result VariableDeclaration :=
  p <- parts this ;;
  ret (mkVariableDeclaration (name (variable this))
                             (quote ++ selected p ++ quote)).

Definition PartialTemplateLiteralOccurrence_modification
           (this : Occurrence) : Result Modification :=
  p <- parts this ;;
  quasi <- selectedQuasi this ;;
  let '(_, _, index) := quasi in
  let qs := quasis (node (path this)) in
  let es := expressions (node (path this)) in
  let newQuasis := [templateElement (before p); templateElement (after p)] in
  let newTemplateLiteral :=
    TemplateLiteral
      (firstn index qs ++ newQuasis ++ skipn (index + 1) qs)
      (firstn index es ++ [Identifier (name (variable this))]
       ++ skipn index es) in
  ret (mkModification (print newTemplateLiteral) (selection this)).

(** [static isValid]: [try { ... } catch { return false; }] *)
Definition PartialTemplateLiteralOccurrence_isValid (path : NodePath)
           (loc : SourceLocation) (userSelection : Editor.Selection) : bool :=
  if Editor.isMultiLines (Editor.Selection_fromAST loc) then false
  else
    let attempt :=
      occurrence <- PartialTemplateLiteralOccurrence_new
                      path loc userSelection ;;
      _ <- PartialTemplateLiteralOccurrence_toVariableDeclaration occurrence ;;
      _ <- PartialTemplateLiteralOccurrence_modification occurrence ;;
      ret tt in
    match attempt with
    | inl _ => false
    | inr _ => true
    end.

(** *** Dispatch on the class of the object *)

Definition toVariableDeclaration (this : Occurrence) (code : Code)
  : Result VariableDeclaration :=
  match class this with
  | MemberExpressionOccurrence _ =>
      ret (MemberExpressionOccurrence_toVariableDeclaration this code)
  | PartialTemplateLiteralOccurrence _ =>
      PartialTemplateLiteralOccurrence_toVariableDeclaration this
  | _ => ret (Occurrence_toVariableDeclaration this code)
  end.

Definition askModificationDetails (editor : Editor) (this : Occurrence)
  : Occurrence :=
  match class this with
  | MemberExpressionOccurrence _ =>
      MemberExpressionOccurrence_askModificationDetails editor this
  | _ => this
  end.

(** *** [createOccurrence]

    The string-literal rule calls [createOccurrence] again on the path it
    has just turned into a template literal; [fuel] counts these calls. *)
Fixpoint createOccurrenceWithin (fuel : nat) (path : NodePath)
         (loc : SourceLocation) (selection : Editor.Selection)
  : Result Occurrence :=
  let shorthand :=
    if canBeShorthand path
    then
      let variable := ShorthandVariable (node path) (parent path) in
      if isValid variable
      then Some (mkOccurrence ShorthandOccurrence path loc variable)
      else None
    else None in
  match shorthand with
  | Some occurrence => ret occurrence
  | None =>
      if isMemberExpression path then
        ret (MemberExpressionOccurrence_new path loc
               (MemberExpressionVariable (node path) (parent path)))
      else if isStringLiteral path then
        if negb (Editor.isEmpty selection) && isStrictlyInsidePath selection path
        then
          match fuel with
          | O => throw "Maximum call stack size exceeded"
          | S fuel' =>
              let '(templateLoc, qs, es) :=
                convertStringToTemplateLiteral (node path) loc in
              createOccurrenceWithin fuel'
                (replaceWith (ExpressionNode (TemplateLiteral qs es))
                             templateLoc path)
                loc selection
          end
        else
          ret (Occurrence_new path loc
                 (StringLiteralVariable (node path) (parent path)))
      else if isTemplateLiteral path
              && negb (Editor.isEmpty selection)
              && PartialTemplateLiteralOccurrence_isValid path loc selection
      then PartialTemplateLiteralOccurrence_new path loc selection
      else
        ret (Occurrence_new path loc
               (GenericVariable (node path) (parent path)))
  end.

(** One nested call is all a path can make: after it the node is a
    template literal. *)
Definition createOccurrence (path : NodePath) (loc : SourceLocation)
           (selection : Editor.Selection) : Result Occurrence :=
  createOccurrenceWithin 1 path loc selection.

End Classes.

End Occurrence.

(** ** A concrete capability, for evaluating the code on examples *)

Module Sample.

Definition newline : string := String (Ascii.ascii_of_nat 10) EmptyString.

Definition isLiteral (e : Expression) : bool :=
  match e with
  | StringLiteral _ | NumericLiteral _ => true
  | _ => false
  end.

(** Modelled from the spec: [ast.toSwitch] is not in the source tree.
    "recognizing an equality comparison between some sub-expression and a
    literal (either operand order)"; "Implementers should at minimum
    support [expr === literal] and [literal === expr]". *)
Definition toSwitch (e : Expression) : option (Expression * Expression) :=
  match e with
  | BinaryExpression operator left_ right_ =>
      if negb (String.eqb operator "===") then None
      else if isLiteral right_ then Some (left_, right_)
      else if isLiteral left_ then Some (right_, left_)
      else None
  | _ => None
  end.

Definition TemplateElement_eqb (a b : TemplateElement) : bool :=
  String.eqb (raw a) (raw b).

Fixpoint all2 {A} (eqb : A -> A -> bool) (xs ys : list A) : bool :=
  match xs, ys with
  | [], [] => true
  | x :: xs', y :: ys' => eqb x y && all2 eqb xs' ys'
  | _, _ => false
  end.

(** Modelled from the spec: [ast.areEqual] is not in the source tree.
    "structurally equal (deep equality over the expression tree, not
    reference equality)". *)
Fixpoint areEqual (a b : Expression) : bool :=
  match a, b with
  | Identifier x, Identifier y => String.eqb x y
  | StringLiteral x, StringLiteral y => String.eqb x y
  | NumericLiteral x, NumericLiteral y => Z.eqb x y
  | BinaryExpression o l r, BinaryExpression o' l' r' =>
      String.eqb o o' && areEqual l l' && areEqual r r'
  | MemberExpression o p c, MemberExpression o' p' c' =>
      areEqual o o' && areEqual p p' && Bool.eqb c c'
  | CallExpression f xs, CallExpression g ys =>
      areEqual f g
      && (fix args (xs ys : list Expression) : bool :=
            match xs, ys with
            | [], [] => true
            | x :: xs', y :: ys' => areEqual x y && args xs' ys'
            | _, _ => false
            end) xs ys
  | TemplateLiteral qs es, TemplateLiteral qs' es' =>
      all2 TemplateElement_eqb qs qs'
      && (fix args (xs ys : list Expression) : bool :=
            match xs, ys with
            | [], [] => true
            | x :: xs', y :: ys' => areEqual x y && args xs' ys'
            | _, _ => false
            end) es es'
  | JSXText x, JSXText y => String.eqb x y
  | _, _ => false
  end.

(** *** A printer with one fixed layout *)

Fixpoint interleave (quasis : list TemplateElement) (holes : list string)
  : string :=
  match quasis with
  | [] => ""
  | q :: quasis' =>
      raw q ++
      match holes with
      | [] => interleave quasis' []
      | h :: holes' => "${" ++ h ++ "}" ++ interleave quasis' holes'
      end
  end.

(** Modelled from the spec: [t.generate] / [t.print] on expressions are
    not in the source tree.  "print(node) -> text". *)
Fixpoint generate (e : Expression) : Code :=
  match e with
  | Identifier name => name
  | StringLiteral value => "'" ++ value ++ "'"
  | NumericLiteral value => DecimalString.NilZero.string_of_int (Z.to_int value)
  | BinaryExpression operator left_ right_ =>
      generate left_ ++ " " ++ operator ++ " " ++ generate right_
  | MemberExpression object property computed =>
      if computed
      then generate object ++ "[" ++ generate property ++ "]"
      else generate object ++ "." ++ generate property
  | CallExpression callee arguments =>
      generate callee ++ "(" ++ String.concat ", " (map generate arguments)
      ++ ")"
  | TemplateLiteral quasis expressions =>
      "`" ++ interleave quasis (map generate expressions) ++ "`"
  | JSXText value => value
  end.

Definition isBlockStatement (s : Statement) : bool :=
  match s with BlockStatement _ => true | _ => false end.

(** Modelled from the spec: the printer is not in the source tree
    ("print(node) -> text").  The text of a statement whose first line
    starts where the caller stands; its further lines are indented by
    [indent]. *)
Fixpoint printStatement (indent : string) (s : Statement) : Code :=
  let lines (inner : string) (body : list Statement) : Code :=
    String.concat ""
      (map (fun st => newline ++ inner ++ printStatement inner st) body) in
  match s with
  | IfStatement _ test consequent alternate =>
      "if (" ++ generate test ++ ") " ++ printStatement indent consequent
      ++ match alternate with
         | None => ""
         | Some alt =>
             (if isBlockStatement consequent
              then " else "
              else newline ++ indent ++ "else ")
             ++ printStatement indent alt
         end
  | SwitchStatement discriminant cases =>
      "switch (" ++ generate discriminant ++ ") {"
      ++ String.concat ""
           (map (fun c =>
                   newline ++ indent ++ "  "
                   ++ match caseTest c with
                      | Some test => "case " ++ generate test ++ ":"
                      | None => "default:"
                      end
                   ++ lines (indent ++ "    ") (caseConsequent c))
                cases)
      ++ newline ++ indent ++ "}"
  | BlockStatement body =>
      "{" ++ lines (indent ++ "  ") body ++ newline ++ indent ++ "}"
  | ReturnStatement None => "return;"
  | ReturnStatement (Some argument) => "return " ++ generate argument ++ ";"
  | BreakStatement => "break;"
  | ExpressionStatement expression => generate expression ++ ";"
  end.

(** Modelled from the spec: the printer on a program, one statement per
    line. *)
Definition print (program : Program) : Code :=
  String.concat newline (map (printStatement "") program).

(** *** Sample texts and their syntax trees *)

Definition loc (startLine startColumn endLine endColumn : Z)
  : option SourceLocation :=
  Some (mkSourceLocation (mkAstPosition startLine startColumn)
                         (mkAstPosition endLine endColumn)).

Definition call (name : string) : Statement :=
  ExpressionStatement (CallExpression (Identifier name) []).

Definition equals (name : string) (literal : Expression) : Expression :=
  BinaryExpression "===" (Identifier name) literal.

(** A chain whose first test is not an equality and whose [else if] is. *)
Definition elseIfTailCode : Code :=
  "if (x > 1) g();" ++ newline ++
  "else if (x === 'b') h();".

Definition elseIfTail : Statement :=
  IfStatement (loc 1 0 2 24)
    (BinaryExpression ">" (Identifier "x") (NumericLiteral 1))
    (call "g")
    (Some (IfStatement (loc 2 5 2 24)
             (equals "x" (StringLiteral "b")) (call "h") None)).

(** A convertible chain nested in the body of a convertible chain. *)
Definition nestedCode : Code :=
  "if (x === 1) {" ++ newline ++
  "  if (y === 2) a();" ++ newline ++
  "}".

Definition nestedInner : Statement :=
  IfStatement (loc 2 2 2 19) (equals "y" (NumericLiteral 2)) (call "a") None.

Definition nested : Statement :=
  IfStatement (loc 1 0 3 1) (equals "x" (NumericLiteral 1))
    (BlockStatement [nestedInner]) None.

(** The text after the nested chain has been converted. *)
Definition nestedConvertedCode : Code :=
  "if (x === 1) {" ++ newline ++
  "  switch (y) {" ++ newline ++
  "    case 2:" ++ newline ++
  "      a();" ++ newline ++
  "      break;" ++ newline ++
  "  }" ++ newline ++
  "}".

Definition nestedConverted : Statement :=
  IfStatement (loc 1 0 7 1) (equals "x" (NumericLiteral 1))
    (BlockStatement
       [SwitchStatement (Identifier "y")
          [switchCase (Some (NumericLiteral 2)) [call "a"; BreakStatement]]])
    None.

(** The text after the [else if] of [elseIfTailCode] has been converted. *)
Definition elseIfTailConvertedCode : Code :=
  "if (x > 1) g();" ++ newline ++
  "else switch (x) {" ++ newline ++
  "  case 'b':" ++ newline ++
  "    h();" ++ newline ++
  "    break;" ++ newline ++
  "}".

Definition elseIfTailConverted : Statement :=
  IfStatement (loc 1 0 6 1)
    (BinaryExpression ">" (Identifier "x") (NumericLiteral 1))
    (call "g")
    (Some (SwitchStatement (Identifier "x")
             [switchCase (Some (StringLiteral "b"))
                         [call "h"; BreakStatement]])).

(** The canonical example of the specification. *)
Definition canonicalCode : Code :=
  "if (x === 'a') {" ++ newline ++
  "  f();" ++ newline ++
  "} else if (x === 'b') {" ++ newline ++
  "  g();" ++ newline ++
  "} else {" ++ newline ++
  "  h();" ++ newline ++
  "}".

Definition canonical : Statement :=
  IfStatement (loc 1 0 7 1) (equals "x" (StringLiteral "a"))
    (BlockStatement [call "f"])
    (Some (IfStatement (loc 3 7 7 1) (equals "x" (StringLiteral "b"))
             (BlockStatement [call "g"])
             (Some (BlockStatement [call "h"])))).

(** [if (x === 'a') f(); else if (y === 'b') g();] *)
Definition differentDiscriminants : Statement :=
  IfStatement (loc 1 0 2 24)
    (equals "x" (StringLiteral "a")) (call "f")
    (Some (IfStatement (loc 2 5 2 24)
             (equals "y" (StringLiteral "b")) (call "g") None)).

(** [if (x === 'a') { return 1; } else if (x === 'b') g(); else { h();
    return; }]: the first and the last body end in a return. *)
Definition returning : Statement :=
  IfStatement (loc 1 0 7 1) (equals "x" (StringLiteral "a"))
    (BlockStatement [ReturnStatement (Some (NumericLiteral 1))])
    (Some (IfStatement (loc 3 7 7 1) (equals "x" (StringLiteral "b"))
             (call "g")
             (Some (BlockStatement [call "h"; ReturnStatement None])))).


(** Modelled from the spec: the parser is not in the source tree
    ("parsing itself (assumed available as a capability)").  It is
    tabulated on the sample texts; any other text has no entry. *)
Definition parse (code : Code) : Program :=
  if String.eqb code elseIfTailCode then [elseIfTail]
  else if String.eqb code nestedCode then [nested]
  else if String.eqb code nestedConvertedCode then [nestedConverted]
  else if String.eqb code canonicalCode then [canonical]
  else if String.eqb code elseIfTailConvertedCode then [elseIfTailConverted]
  else [].

#[export] Instance capability : Capability :=
  Build_Capability toSwitch areEqual parse print Editor.isInsidePath.

(** *** Sample variables and occurrences *)

Definition variableNamed (name : string) : Occurrence.Variable_ :=
  Occurrence.mkVariable name name (Z.of_nat (String.length name)) true.

(** Modelled from the spec: [MemberExpressionVariable] is not in the
    source tree.  "preserve (declaration [name = <object>.name])": the
    name is the one of the property. *)
Definition MemberExpressionVariable (node parent : Occurrence.Node)
  : Occurrence.Variable_ :=
  match node with
  | Occurrence.ExpressionNode (MemberExpression _ (Identifier name) false) =>
      variableNamed name
  | _ => variableNamed "extracted"
  end.

(** Modelled from the spec: [ShorthandVariable] is not in the source
    tree.  "the inserted declaration name is the property key name";
    "shorthand requires the candidate name to already match context". *)
Definition ShorthandVariable (node parent : Occurrence.Node)
  : Occurrence.Variable_ :=
  match node with
  | Occurrence.ObjectPropertyNode (Identifier key) (Identifier value) =>
      Occurrence.mkVariable key key (Z.of_nat (String.length key))
                            (String.eqb key value)
  | _ => Occurrence.mkVariable "extracted" "extracted" 9 false
  end.

(** Modelled from the spec: [t.canBeShorthand] is not in the source tree.
    "the node can be written in shorthand property form (object-literal
    property)". *)
Definition canBeShorthand (path : Occurrence.NodePath) : bool :=
  match Occurrence.node path with
  | Occurrence.ObjectPropertyNode _ _ => true
  | _ => false
  end.

(** Modelled from the spec: the [Variable] class is not in the source
    tree.  "declaration name is a derived identifier": here one fixed
    name. *)
Definition GenericVariable (node parent : Occurrence.Node)
  : Occurrence.Variable_ := variableNamed "extracted".

(** Modelled from the spec: [t.convertStringToTemplateLiteral] is not in
    the source tree.  "rewrite the literal to template-literal form": the
    text of the string literal becomes the one segment of the template
    literal; the segment lies inside the quotes. *)
Definition convertStringToTemplateLiteral (node : Occurrence.Node)
           (l : SourceLocation)
  : option SourceLocation * list TemplateElement * list Expression :=
  let inside :=
    mkSourceLocation
      (mkAstPosition (line (start l)) (column (start l) + 1))
      (mkAstPosition (line (end_ l)) (column (end_ l) - 1)) in
  match node with
  | Occurrence.ExpressionNode (StringLiteral value) =>
      (Some l, [templateElementAt value (Some inside)], [])
  | _ => (Some l, [], [])
  end.

(** Modelled from the spec: [Selection.isStrictlyInsidePath] is not in
    the source tree.  "the user's sub-selection is strictly inside it
    (not the whole literal)". *)
Definition isStrictlyInside (this other : Editor.Selection) : bool :=
  Editor.isBefore (Editor.start other) (Editor.start this)
  && Editor.isBefore (Editor.end_ this) (Editor.end_ other).

(** Modelled from the spec: strict containment in the range of the node
    at the path. *)
Definition isStrictlyInsidePath (this : Editor.Selection)
           (path : Occurrence.NodePath) : bool :=
  match Occurrence.nodeLoc path with
  | Some l => isStrictlyInside this (Editor.Selection_fromAST l)
  | None => false
  end.

#[export] Instance dependencies : Occurrence.Dependencies :=
  Occurrence.Build_Dependencies
    canBeShorthand ShorthandVariable MemberExpressionVariable
    GenericVariable GenericVariable convertStringToTemplateLiteral
    isStrictlyInsidePath Editor.isInsideNode generate generate.

(** [obj.value] in [const copy = obj.value;] *)
Definition objValue : Occurrence.NodePath :=
  Occurrence.mkNodePath
    (Occurrence.ExpressionNode
       (MemberExpression (Identifier "obj") (Identifier "value") false))
    (loc 1 13 1 22)
    (Occurrence.StatementNode (BlockStatement [])).

Definition objValueLoc : SourceLocation :=
  mkSourceLocation (mkAstPosition 1 13) (mkAstPosition 1 22).

(** [obj[value]] *)
Definition objValueComputed : Occurrence.NodePath :=
  Occurrence.mkNodePath
    (Occurrence.ExpressionNode
       (MemberExpression (Identifier "obj") (Identifier "value") true))
    (loc 1 13 1 23)
    (Occurrence.StatementNode (BlockStatement [])).

(** An editor whose prompt is dismissed. *)
Definition dismissingEditor : Occurrence.Editor :=
  {| Occurrence.askUser := fun _ => None |}.

(** An editor that answers "preserve". *)
Definition preservingEditor : Occurrence.Editor :=
  {| Occurrence.askUser :=
       fun options =>
         List.find
           (fun c => match Occurrence.value c with
                     | Occurrence.Preserve => true
                     | Occurrence.Destructure => false
                     end)
           options |}.

(** The template literal of [const s = `Hello world`;], on one line. *)
Definition helloLoc : SourceLocation :=
  mkSourceLocation (mkAstPosition 1 10) (mkAstPosition 1 23).

Definition hello : Occurrence.NodePath :=
  Occurrence.mkNodePath
    (Occurrence.ExpressionNode
       (TemplateLiteral [templateElementAt "Hello world" (loc 1 11 1 22)] []))
    (Some helloLoc)
    (Occurrence.StatementNode (BlockStatement [])).

(** The same literal, its segment without a source range. *)
Definition helloUnlocated : Occurrence.NodePath :=
  Occurrence.mkNodePath
    (Occurrence.ExpressionNode
       (TemplateLiteral [templateElementAt "Hello world" None] []))
    (Some helloLoc)
    (Occurrence.StatementNode (BlockStatement [])).

(** A template literal over two lines: the segment runs from line 1,
    column 11 to line 2, column 5. *)
Definition twoLinesLoc : SourceLocation :=
  mkSourceLocation (mkAstPosition 1 10) (mkAstPosition 2 6).

Definition twoLinesQuasiLoc : SourceLocation :=
  mkSourceLocation (mkAstPosition 1 11) (mkAstPosition 2 5).

Definition twoLines : Occurrence.NodePath :=
  Occurrence.mkNodePath
    (Occurrence.ExpressionNode
       (TemplateLiteral
          [templateElementAt ("Hello" ++ newline ++ "world")
                             (Some twoLinesQuasiLoc)] []))
    (Some twoLinesLoc)
    (Occurrence.StatementNode (BlockStatement [])).

End Sample.

(** ** The shape of a case *)

Module Shape.

(** A list of statements that is not empty and ends in a return or in a
    break. *)
Definition endsInReturnOrBreak (statements : list Statement) : Prop :=
  exists front final,
    statements = (front ++ [final])%list
    /\ (final = BreakStatement \/ isReturnStatement final = true).

(** A list of statements whose last one is a return. *)
Definition endsInReturn (statements : list Statement) : Prop :=
  exists front argument,
    statements = (front ++ [ReturnStatement argument])%list.

(** The statement list of the case a body becomes, in the words of the
    specification: "if the body already ends in a return, keep it
    verbatim; otherwise append an explicit fall-through terminator
    (break)". *)
Definition keptOrBreakAppended (statement : Statement)
           (body : list Statement) : Prop :=
  (endsInReturn (getStatements statement)
   /\ body = getStatements statement)
  \/ (~ endsInReturn (getStatements statement)
      /\ body = (getStatements statement ++ [BreakStatement])%list).

End Shape.

(** ** Conditional statements the selection reaches *)

Module Reach.

Section WithCapability.
Context {cap : Capability}.
Variable selection : Editor.Selection.

(** Some conditional statement, the statement itself or one below it,
    passes the test [selection.isInsidePath(path)] of the visitors. *)
Fixpoint selectedAnywhere (s : Statement) : bool :=
  match s with
  | IfStatement _ _ consequent alternate =>
      isInsidePath selection s
      || selectedAnywhere consequent
      || match alternate with
         | Some alt => selectedAnywhere alt
         | None => false
         end
  | SwitchStatement _ cases =>
      existsb (fun c => existsb selectedAnywhere (caseConsequent c)) cases
  | BlockStatement body => existsb selectedAnywhere body
  | _ => false
  end.

End WithCapability.

End Reach.

(** ** The string operations of JavaScript the Vue editor uses *)

Module JavaScript.

Definition lineFeed : Ascii.ascii := Ascii.ascii_of_nat 10.

(** [s.indexOf(searchString)]: the first index, or [-1]. *)
Definition indexOf (s searchString : string) : Z :=
  match String.index 0 searchString s with
  | Some n => Z.of_nat n
  | None => (-1)%Z
  end.

(** How [slice] reads one of its arguments: a negative index counts from
    the end, and the result is clamped to the string. *)
Definition sliceIndex (len i : Z) : Z :=
  if (i <? 0)%Z then Z.max (len + i) 0 else Z.min i len.

(** [s.slice(start, end)] *)
Definition slice (s : string) (start end_ : Z) : string :=
  let len := Z.of_nat (String.length s) in
  let from := sliceIndex len start in
  let to := sliceIndex len end_ in
  String.substring (Z.to_nat from) (Z.to_nat (Z.max (to - from) 0)) s.

(** [s.split("\n")] *)
Fixpoint split (s : string) : list string :=
  match s with
  | EmptyString => [EmptyString]
  | String c rest =>
      match split rest with
      | piece :: pieces =>
          if Ascii.eqb c lineFeed
          then EmptyString :: piece :: pieces
          else String c piece :: pieces
      | [] => [String c EmptyString]
      end
  end.

(** The number of line feeds of a text. *)
Fixpoint lineFeeds (s : string) : nat :=
  match s with
  | EmptyString => 0
  | String c rest =>
      (if Ascii.eqb c lineFeed then 1 else 0) + lineFeeds rest
  end.

End JavaScript.

(** ** The editor of Vue documents: [VueVSCodeEditor]

    [src/editor/adapters/vue-vscode-editor.ts].  The class it extends is
    not in the source tree: what [super.code] and [super.selection]
    return are fields of the object, a call to a method of [super] is a
    value that records the arguments, and the line arithmetic of
    [Position] is a parameter. *)

Module VueVSCodeEditor.

Record VSCodeEditor : Type := mkVSCodeEditor {
  superCode : Code;
  superSelection : Editor.Selection
}.

(** [Position.removeLines] and [Position.addLines], whose code is not in
    the source tree. *)
Class PositionLines : Type := {
  removeLines : Z -> Editor.Position -> Editor.Position;
  addLines : Z -> Editor.Position -> Editor.Position
}.

(** [Selection.fromPositions(start, end)] *)
Definition Selection_fromPositions (start end_ : Editor.Position)
  : Editor.Selection := Editor.mkSelection start end_.

(** A call to a method of the class it extends, with its arguments. *)
Inductive SuperCall : Type :=
| super_write (code : Code) (newCursorPosition : option Editor.Position)
| super_readThenWrite
    (selection : Editor.Selection)
    (getModifications : Code -> list Occurrence.Modification)
    (newCursorPosition : option Editor.Position)
| super_moveCursorTo (position : Editor.Position).


Section Methods.
Context {lines : PositionLines}.
Variable this : VSCodeEditor.

Definition openingTag : string := "<script>".

Definition openingTagOffset : Z :=
  (JavaScript.indexOf (superCode this) openingTag
   + Z.of_nat (String.length openingTag))%Z.

Definition closingTagOffset : Z :=
  JavaScript.indexOf (superCode this) "</script>".

Definition toOffsetLinesCount (offset : Z) : Z :=
  (Z.of_nat
     (List.length
        (JavaScript.split (JavaScript.slice (superCode this) 0 offset)))
   - 1)%Z.

Definition offsetPosition (position : Editor.Position) : Editor.Position :=
  addLines (toOffsetLinesCount openingTagOffset) position.

Definition offsetSelection (selection : Editor.Selection)
  : Editor.Selection :=
  let offsetLinesCount := toOffsetLinesCount openingTagOffset in
  Selection_fromPositions
    (addLines offsetLinesCount (Editor.start selection))
    (addLines offsetLinesCount (Editor.end_ selection)).

Definition offsetEditorSelection (selection : Editor.Selection)
  : Editor.Selection :=
  let offsetLinesCount := toOffsetLinesCount openingTagOffset in
  Selection_fromPositions
    (removeLines offsetLinesCount (Editor.start selection))
    (removeLines offsetLinesCount (Editor.end_ selection)).

(** [get code()] *)
Definition code : Code :=
  JavaScript.slice (superCode this) openingTagOffset closingTagOffset.

(** [get selection()] *)
Definition selection : Editor.Selection :=
  offsetEditorSelection (superSelection this).

(** [newCursorPosition && this.offsetPosition(newCursorPosition)] *)
Definition write (code : Code) (newCursorPosition : option Editor.Position)
  : SuperCall :=
  super_write code (option_map offsetPosition newCursorPosition).


Definition readThenWrite
           (selection : Editor.Selection)
           (getModifications : Code -> list Occurrence.Modification)
           (newCursorPosition : option Editor.Position) : SuperCall :=
  let getOffsetModifications (code : Code) :=
    map (fun m =>
           Occurrence.mkModification
             (Occurrence.modificationCode m)
             (offsetSelection (Occurrence.modificationSelection m)))
        (getModifications code) in
  super_readThenWrite
    (offsetSelection selection)
    getOffsetModifications
    (option_map offsetPosition newCursorPosition).

Definition moveCursorTo (position : Editor.Position) : SuperCall :=
  super_moveCursorTo (offsetPosition position).

End Methods.

(** Line arithmetic on the line number, the character kept. *)
Definition shiftLines (n : Z) (p : Editor.Position) : Editor.Position :=
  Editor.mkPosition (Editor.line p + n) (Editor.character p).

(** Modelled from the spec: [Position.addLines] and
    [Position.removeLines] are not in the source tree.  "supports
    line-shift arithmetic (used when a selection is expressed relative to
    an embedded sub-document)". *)
Definition integerLines : PositionLines :=
  {| removeLines := fun n => shiftLines (- n);
     addLines := fun n => shiftLines n |}.

(** A Vue document: a template on line 0, the script on lines 1 to 3. *)
Definition sampleDocument : Code :=
  ("<template></template>" ++ Sample.newline
   ++ "<script>" ++ Sample.newline
   ++ "let x;" ++ Sample.newline
   ++ "</script>" ++ Sample.newline)%string.

(** A document whose script tag carries an attribute. *)
Definition attributeDocument : Code :=
  ("<script setup>" ++ Sample.newline
   ++ "let x;" ++ Sample.newline
   ++ "</script>" ++ Sample.newline)%string.

(** The sample document cut before its closing tag. *)
Definition unclosedDocument : Code :=
  ("<template></template>" ++ Sample.newline
   ++ "<script>" ++ Sample.newline
   ++ "let x;" ++ Sample.newline)%string.

End VueVSCodeEditor.

(** * Theorems *)

Local Open Scope list_scope.

(** ** Facts about the sample capability *)

Module SampleFacts.

(** Induction on expressions, with the hypothesis on every argument of a
    call and every expression of a template literal. *)
Lemma Expression_nested_ind (P : Expression -> Prop) :
  (forall name, P (Identifier name)) ->
  (forall value, P (StringLiteral value)) ->
  (forall value, P (NumericLiteral value)) ->
  (forall operator l r, P l -> P r -> P (BinaryExpression operator l r)) ->
  (forall object property computed,
      P object -> P property ->
      P (MemberExpression object property computed)) ->
  (forall callee arguments,
      P callee -> Forall P arguments -> P (CallExpression callee arguments)) ->
  (forall quasis expressions,
      Forall P expressions -> P (TemplateLiteral quasis expressions)) ->
  (forall value, P (JSXText value)) ->
  forall e, P e.
Proof.
  intros Hid Hstr Hnum Hbin Hmem Hcall Htpl Hjsx.
  fix IH 1.
  intros [name|value|value|operator l r|object property computed
         |callee arguments|quasis expressions|value].
  - apply Hid.
  - apply Hstr.
  - apply Hnum.
  - apply Hbin; apply IH.
  - apply Hmem; apply IH.
  - apply Hcall; [apply IH|].
    induction arguments as [|a arguments IHargs]; constructor;
      [apply IH|exact IHargs].
  - apply Htpl.
    induction expressions as [|a expressions IHexprs]; constructor;
      [apply IH|exact IHexprs].
  - apply Hjsx.
Qed.

Lemma all2_refl {A} (eqb : A -> A -> bool) (l : list A) :
  (forall x, eqb x x = true) -> Sample.all2 eqb l l = true.
Proof.
  intros H. induction l as [|x l IH]; cbn; [reflexivity|].
  now rewrite H, IH.
Qed.

(** The sample comparison is by structure: a tree equals every tree of
    the same shape and contents, itself included, wherever it was
    built. *)
Lemma areEqual_refl e : Sample.areEqual e e = true.
Proof.
  induction e as [name|value|value|operator l r IHl IHr
                 |object property computed IHo IHp
                 |callee arguments IHc IHargs|quasis expressions IHexprs
                 |value] using Expression_nested_ind; cbn.
  - apply String.eqb_refl.
  - apply String.eqb_refl.
  - apply Z.eqb_refl.
  - now rewrite String.eqb_refl, IHl, IHr.
  - rewrite IHo, IHp. now destruct computed.
  - rewrite IHc. cbn.
    induction IHargs as [|a arguments Ha _ IH]; [reflexivity|].
    now rewrite Ha, IH.
  - rewrite all2_refl by (intros x; apply String.eqb_refl). cbn.
    induction IHexprs as [|a expressions Ha _ IH]; [reflexivity|].
    now rewrite Ha, IH.
  - apply String.eqb_refl.
Qed.

(** The sample parser and the printer agree on the sample texts. *)
Lemma print_parse_samples :
  Forall (fun code => Sample.print (Sample.parse code) = code)
         [ Sample.elseIfTailCode; Sample.elseIfTailConvertedCode;
           Sample.nestedCode; Sample.nestedConvertedCode;
           Sample.canonicalCode ].
Proof. repeat constructor. Qed.

End SampleFacts.

(** ** Facts about [IfElseToSwitch] *)

Module IfElseToSwitchFacts.
Import IfElseToSwitch Chain.

(** Induction along the [else if] spine of a conditional statement. *)
Lemma chain_ind (P : Statement -> Prop) :
  (forall s, isIfStatement s = false -> P s) ->
  (forall loc test consequent, P (IfStatement loc test consequent None)) ->
  (forall loc test consequent alt,
      P alt -> P (IfStatement loc test consequent (Some alt))) ->
  forall s, P s.
Proof.
  intros Hother Hlast Hlink.
  fix IH 1.
  intros [loc test consequent [alt|] | | | | | ].
  - apply Hlink, IH.
  - apply Hlast.
  - now apply Hother.
  - now apply Hother.
  - now apply Hother.
  - now apply Hother.
  - now apply Hother.
Qed.

Lemma preserves_refl s : preserves s s.
Proof. now split. Qed.

Lemma preserves_trans s1 s2 s3 :
  preserves s1 s2 -> preserves s2 s3 -> preserves s1 s3.
Proof. intros [F1 D1] [F2 D2]; split; auto. Qed.

Lemma addCase_preserves test statement s :
  preserves s (addCase test statement s).
Proof. now split. Qed.

Section WithCapability.
Context {cap : Capability}.

Lemma convertConsequent_preserves test consequent s :
  preserves s (convertConsequent test consequent s).
Proof.
  unfold convertConsequent.
  destruct (toSwitch test) as [[d' t']|]; [|now split].
  destruct s as [[d|] cs flag]; cbn.
  - destruct (areEqual d d'); split; cbn; auto.
  - destruct (areEqual d' d'); split; cbn; auto; discriminate.
Qed.

Lemma convertNode_preserves node : forall s, preserves s (convertNode node s).
Proof.
  induction node as [s' Hs'|loc test consequent|loc test consequent alt IH]
    using chain_ind; intros s.
  - destruct s'; try discriminate; apply preserves_refl.
  - cbn. apply convertConsequent_preserves.
  - cbn. destruct (isIfStatement alt).
    + eapply preserves_trans; [apply convertConsequent_preserves | apply IH].
    + eapply preserves_trans;
        [apply convertConsequent_preserves | apply addCase_preserves].
Qed.

Lemma last_cons_default {A} (l : list A) :
  forall x d, last (x :: l) d = last l x.
Proof.
  induction l as [|y l IH]; intros x d; [reflexivity|].
  change (last (x :: y :: l) d) with (last (y :: l) d).
  now rewrite !IH.
Qed.

(** The trace ends in the state [convertNode] returns. *)
Lemma trace_last node : forall s, last (trace node s) s = convertNode node s.
Proof.
  induction node as [s' Hs'|loc test consequent|loc test consequent alt IH]
    using chain_ind; intros s.
  - destruct s'; try discriminate; reflexivity.
  - reflexivity.
  - cbn [trace convertNode convertAlternate].
    rewrite last_cons_default.
    destruct (isIfStatement alt) eqn:Halt.
    + apply IH.
    + reflexivity.
Qed.

Lemma trace_preserves node :
  forall s, Forall (preserves s) (trace node s)
            /\ ForallOrdPairs preserves (trace node s).
Proof.
  induction node as [s' Hs'|loc test consequent|loc test consequent alt IH]
    using chain_ind; intros s.
  - destruct s'; try discriminate; split; constructor.
  - cbn. split; repeat constructor; apply convertConsequent_preserves.
  - cbn [trace].
    pose proof (convertConsequent_preserves test consequent s) as H1.
    set (s1 := convertConsequent test consequent s) in *.
    destruct (isIfStatement alt).
    + destruct (IH s1) as [Hall Hord]. split.
      * constructor; [exact H1|].
        eapply Forall_impl; [|exact Hall].
        intros a Ha. eapply preserves_trans; eauto.
      * constructor; assumption.
    + pose proof (addCase_preserves None alt s1) as H2. split.
      * constructor; [exact H1|]. constructor; [|constructor].
        eapply preserves_trans; eauto.
      * constructor; [|repeat constructor].
        constructor; [exact H2|constructor].
Qed.

Lemma ForallOrdPairs_nth_error {A} (R : A -> A -> Prop) (l : list A) :
  ForallOrdPairs R l ->
  forall i j a b, i < j ->
    nth_error l i = Some a -> nth_error l j = Some b -> R a b.
Proof.
  induction 1 as [|x l Hx Hl IH]; intros i j a b Hij Hi Hj.
  - destruct i; discriminate.
  - destruct j as [|j]; [lia|]. cbn in Hj.
    destruct i as [|i]; cbn in Hi.
    + injection Hi as <-.
      rewrite Forall_forall in Hx. apply Hx.
      eapply nth_error_In; eassumption.
    + eapply IH; [|eassumption|eassumption]. lia.
Qed.

(** A link whose test does not decompose clears the flag for good. *)
Lemma convertNode_not_decomposed node :
  forall s link,
    In link (links node) -> toSwitch (fst link) = None ->
    canConvertAllBranches (convertNode node s) = false.
Proof.
  induction node as [s' Hs'|loc test consequent|loc test consequent alt IH]
    using chain_ind; intros s link Hin Hnone.
  - destruct s'; try discriminate; destruct Hin.
  - cbn in Hin. destruct Hin as [<-|[]]. cbn in Hnone.
    cbn. unfold convertConsequent. now rewrite Hnone.
  - cbn [links] in Hin. destruct Hin as [<-|Hin].
    + cbn in Hnone.
      cbn [convertNode convertAlternate].
      assert (Hs : canConvertAllBranches (convertConsequent test consequent s)
                   = false)
        by (unfold convertConsequent; now rewrite Hnone).
      destruct (isIfStatement alt).
      * now apply convertNode_preserves.
      * reflexivity || exact Hs.
    + cbn [convertNode convertAlternate].
      destruct (isIfStatement alt) eqn:Halt.
      * eapply IH; eassumption.
      * destruct alt; try discriminate; destruct Hin.
Qed.

(** [convert] hands back the node itself unless it builds a switch. *)
Lemma convert_cases node :
  convert node = node
  \/ exists d, discriminant (convertNode node init) = Some d
               /\ canConvertAllBranches (convertNode node init) = true
               /\ convert node = SwitchStatement d (cases (convertNode node init)).
Proof.
  unfold convert.
  destruct (discriminant (convertNode node init)) as [d|]; [|now left].
  destruct (canConvertAllBranches (convertNode node init)); [|now left].
  right. now exists d.
Qed.

(** [convertedNode === node], read off the kind of the converted node. *)
Lemma convert_same_node loc test consequent alternate :
  let node := IfStatement loc test consequent alternate in
  isSwitchStatement (convert node) = false <-> convert node = node.
Proof.
  intros node. split.
  - intros H. destruct (convert_cases node) as [E|(d & _ & _ & E)]; [exact E|].
    rewrite E in H. discriminate.
  - intros ->. reflexivity.
Qed.

Lemma convert_flag_false node :
  canConvertAllBranches (convertNode node init) = false -> convert node = node.
Proof.
  intros H. unfold convert. rewrite H.
  now destruct (discriminant (convertNode node init)).
Qed.

(** The shared discriminant is the one of the first link that decomposes. *)
Lemma convertNode_discriminant node :
  forall s,
    discriminant (convertNode node s)
    = match discriminant s with
      | Some d => Some d
      | None => firstDiscriminant (links node)
      end.
Proof.
  induction node as [s' Hs'|loc test consequent|loc test consequent alt IH]
    using chain_ind; intros s.
  - destruct s'; try discriminate; cbn; now destruct (discriminant s).
  - cbn. unfold convertConsequent.
    destruct (toSwitch test) as [[d' t']|]; cbn.
    + destruct s as [[d|] cs flag]; cbn.
      * now destruct (areEqual d d').
      * now destruct (areEqual d' d').
    + now destruct (discriminant s).
  - cbn [convertNode convertAlternate links firstDiscriminant].
    assert (Hc : discriminant (convertConsequent test consequent s)
                 = match discriminant s with
                   | Some d => Some d
                   | None => option_map fst (toSwitch test)
                   end).
    { unfold convertConsequent.
      destruct (toSwitch test) as [[d' t']|]; cbn.
      - destruct s as [[d|] cs flag]; cbn.
        + now destruct (areEqual d d').
        + now destruct (areEqual d' d').
      - now destruct (discriminant s). }
    cbn [fst].
    destruct (isIfStatement alt) eqn:Halt.
    + rewrite IH, Hc.
      destruct (discriminant s); [reflexivity|].
      now destruct (toSwitch test) as [[d' t']|].
    + cbn. rewrite Hc.
      destruct (discriminant s); [reflexivity|].
      destruct (toSwitch test) as [[d' t']|]; [reflexivity|].
      destruct alt; try discriminate; reflexivity.
Qed.

(** A link that decomposes against another discriminant clears the flag. *)
Lemma convertNode_disagreement node :
  forall s d link d' v,
    match discriminant s with
    | Some d0 => Some d0
    | None => firstDiscriminant (links node)
    end = Some d ->
    In link (links node) ->
    toSwitch (fst link) = Some (d', v) ->
    areEqual d d' = false ->
    canConvertAllBranches (convertNode node s) = false.
Proof.
  induction node as [s' Hs'|loc test consequent|loc test consequent alt IH]
    using chain_ind; intros s d link d' v Hd Hin Hsw Hneq.
  - destruct s'; try discriminate; destruct Hin.
  - cbn in Hin. destruct Hin as [<-|[]]. cbn in Hsw, Hd |- *.
    unfold convertConsequent. rewrite Hsw in *.
    destruct s as [[d0|] cs flag]; cbn in *; injection Hd as ->;
      now rewrite Hneq.
  - cbn [links firstDiscriminant fst] in Hd, Hin.
    cbn [convertNode convertAlternate].
    assert (Hhere : fst link = test -> toSwitch test = Some (d', v) ->
              canConvertAllBranches (convertConsequent test consequent s)
              = false).
    { intros _ Ht. unfold convertConsequent. rewrite Ht in *.
      destruct s as [[d0|] cs flag]; cbn in *; injection Hd as ->;
        now rewrite Hneq. }
    destruct Hin as [<-|Hin].
    + specialize (Hhere eq_refl Hsw).
      destruct (isIfStatement alt).
      * now apply convertNode_preserves.
      * exact Hhere.
    + destruct (isIfStatement alt) eqn:Halt;
        [|destruct alt; try discriminate; destruct Hin].
      eapply IH; [|exact Hin|exact Hsw|exact Hneq].
      unfold convertConsequent.
      destruct (toSwitch test) as [[d1 t1]|]; cbn.
      * destruct s as [[d0|] cs flag]; cbn in *.
        -- now destruct (areEqual d0 d1).
        -- now destruct (areEqual d1 d1).
      * now destruct (discriminant s).
Qed.

(** When every link decomposes against the shared discriminant, the run
    appends the cases of the chain and touches nothing else. *)
Lemma convertNode_agreement node :
  forall s d,
    isIfStatement node = true ->
    match discriminant s with
    | Some d0 => Some d0
    | None => firstDiscriminant (links node)
    end = Some d ->
    forallb (decomposesAgainst d) (links node) = true ->
    convertNode node s
    = {| discriminant := Some d;
         cases := cases s ++ switchCases node;
         canConvertAllBranches := canConvertAllBranches s |}.
Proof.
  induction node as [s' Hs'|loc test consequent|loc test consequent alt IH]
    using chain_ind; intros s d Hif Hd Hall.
  - congruence.
  - cbn in Hall, Hd |- *. rewrite andb_true_r in Hall.
    unfold decomposesAgainst in Hall. cbn [fst] in Hall.
    unfold convertConsequent, switchCases, caseOfLink. cbn.
    destruct (toSwitch test) as [[d' t']|]; [|discriminate].
    destruct s as [[d0|] cs flag]; cbn in *; injection Hd as ->;
      rewrite Hall; reflexivity.
  - cbn [links forallb] in Hall. apply andb_true_iff in Hall as [Hhere Hall].
    cbn [links firstDiscriminant fst] in Hd.
    unfold decomposesAgainst in Hhere. cbn [fst] in Hhere.
    cbn [convertNode convertAlternate].
    assert (Hc : convertConsequent test consequent s
                 = {| discriminant := Some d;
                      cases := cases s ++ [caseOfLink (test, consequent)];
                      canConvertAllBranches := canConvertAllBranches s |}).
    { unfold convertConsequent, caseOfLink. cbn [fst snd].
      destruct (toSwitch test) as [[d' t']|]; [|discriminate].
      destruct s as [[d0|] cs flag]; cbn in *; injection Hd as ->;
        rewrite Hhere; reflexivity. }
    rewrite Hc.
    unfold switchCases. cbn [links trailingElse map].
    destruct (isIfStatement alt) eqn:Halt.
    + rewrite (IH _ d eq_refl); [|reflexivity|exact Hall].
      cbn [cases discriminant canConvertAllBranches]. unfold switchCases.
      rewrite <- !app_assoc. reflexivity.
    + destruct alt; try discriminate; cbn;
        unfold addDefault, addCase, pushCase, defaultCase; cbn;
        rewrite <- ?app_assoc; reflexivity.
Qed.

End WithCapability.

End IfElseToSwitchFacts.

(** ** Conversion of a chain: the specification's properties *)

Module IfElseToSwitchSpec.
Import IfElseToSwitch Chain IfElseToSwitchFacts.

Lemma last_map_Some {A} (front : list A) (x : A) :
  last (map Some (front ++ [x])) None = Some x.
Proof.
  rewrite map_app. cbn. apply last_last.
Qed.

(** [hasFinalReturn] holds of the lists whose last statement is a return. *)
Lemma hasFinalReturn_true statements :
  hasFinalReturn statements = true <->
  exists front argument,
    statements = (front ++ [ReturnStatement argument])%list.
Proof.
  unfold hasFinalReturn. split.
  - induction statements as [|x front _] using rev_ind; [discriminate|].
    rewrite last_map_Some. destruct x; try discriminate.
    intros _. now exists front, argument.
  - intros (front & argument & ->). now rewrite last_map_Some.
Qed.

Section WithCapability.
Context {cap : Capability}.

(** The body of a case is the one the specification words. *)
Lemma caseBody_keptOrBreakAppended statement :
  Shape.keptOrBreakAppended statement (caseBody statement).
Proof.
  unfold Shape.keptOrBreakAppended, Shape.endsInReturn, caseBody.
  destruct (hasFinalReturn (getStatements statement)) eqn:H.
  - left. split; [|reflexivity]. now apply hasFinalReturn_true.
  - right. split; [|reflexivity].
    intros Hreturn. apply hasFinalReturn_true in Hreturn. congruence.
Qed.

(** C1.  A chain whose links all decompose into an equality check against
    the discriminant [d] of its first link converts to a switch on [d]
    that has one case per link, in source order, and after them one
    [default] case when the chain has a trailing [else], and no other
    case.  The case of a link tests the value the link's test decomposes
    to.  The statement list of every case, the default included, is the
    statements of the body kept verbatim when the last of them is a
    return, and the statements of the body with a break appended when
    it is not. *)
Theorem convert_chain_to_switch loc test consequent alternate d :
  let node := IfStatement loc test consequent alternate in
  firstDiscriminant (links node) = Some d ->
  forallb (decomposesAgainst d) (links node) = true ->
  exists cs,
    convert node = SwitchStatement d cs
    /\ length cs
       = length (links node)
         + match trailingElse node with Some _ => 1 | None => 0 end
    /\ (forall i link,
          nth_error (links node) i = Some link ->
          exists d' v body,
            toSwitch (fst link) = Some (d', v)
            /\ areEqual d d' = true
            /\ nth_error cs i = Some (switchCase (Some v) body)
            /\ Shape.keptOrBreakAppended (snd link) body)
    /\ (forall statement,
          trailingElse node = Some statement ->
          exists body,
            nth_error cs (length (links node))
            = Some (switchCase None body)
            /\ Shape.keptOrBreakAppended statement body).
Proof.
  intros node Hfirst Hall.
  exists (switchCases node). split; [|split; [|split]].
  - unfold convert.
    rewrite (convertNode_agreement node init d eq_refl Hfirst Hall).
    reflexivity.
  - unfold switchCases. rewrite length_app, length_map.
    destruct (trailingElse node); reflexivity.
  - intros i link Hi.
    pose proof (nth_error_In _ _ Hi) as Hin.
    rewrite forallb_forall in Hall. specialize (Hall link Hin).
    unfold decomposesAgainst in Hall.
    destruct (toSwitch (fst link)) as [[d' v]|] eqn:Hsw; [|discriminate].
    exists d', v, (caseBody (snd link)).
    split; [reflexivity|]. split; [exact Hall|]. split.
    + unfold switchCases. rewrite nth_error_app1.
      * rewrite nth_error_map, Hi. cbn. unfold caseOfLink.
        now rewrite Hsw.
      * rewrite length_map. apply nth_error_Some. congruence.
    + apply caseBody_keptOrBreakAppended.
  - intros statement Helse.
    exists (caseBody statement). split.
    + unfold switchCases. rewrite Helse, nth_error_app2.
      * rewrite length_map, Nat.sub_diag. reflexivity.
      * rewrite length_map. apply Nat.le_refl.
    + apply caseBody_keptOrBreakAppended.
Qed.

(** C3.  When a link of the chain decomposes to a discriminant that
    [areEqual] tells apart from the discriminant of the first decomposed
    link, [convert] returns the conditional statement it was given. *)
Theorem convert_discriminant_disagreement
        loc test consequent alternate d link d' v :
  let node := IfStatement loc test consequent alternate in
  firstDiscriminant (links node) = Some d ->
  In link (links node) ->
  toSwitch (fst link) = Some (d', v) ->
  areEqual d d' = false ->
  convert node = node.
Proof.
  intros node Hfirst Hin Hsw Hneq.
  apply convert_flag_false.
  eapply convertNode_disagreement; [exact Hfirst|exact Hin|exact Hsw|exact Hneq].
Qed.

(** C6.  Among the states the object goes through while it walks a chain
    (the initial one, then one after each link), a later state has the
    flag [canConvertAllBranches] false whenever an earlier one has, and
    has the discriminant of an earlier one whenever that one has any. *)
Theorem run_invariants node i j si sj :
  i <= j ->
  nth_error (init :: trace node init) i = Some si ->
  nth_error (init :: trace node init) j = Some sj ->
  (canConvertAllBranches si = false -> canConvertAllBranches sj = false)
  /\ (forall d, discriminant si = Some d -> discriminant sj = Some d).
Proof.
  intros Hij Hi Hj.
  destruct (Nat.eq_dec i j) as [->|Hne].
  - rewrite Hi in Hj. injection Hj as ->. apply preserves_refl.
  - destruct (trace_preserves node init) as [Hall Hord].
    eapply (ForallOrdPairs_nth_error preserves (init :: trace node init));
      [constructor; assumption| |exact Hi|exact Hj].
    lia.
Qed.

End WithCapability.

#[local] Existing Instance Sample.capability.

(** [if (x === 'a') { return 1; } else if (x === 'b') g(); else { h();
    return; }]: the bodies that end in a return are kept as they are,
    the one that does not gets a break. *)
Lemma convert_chain_to_switch_witness :
  firstDiscriminant (links Sample.returning) = Some (Identifier "x")
  /\ forallb (decomposesAgainst (Identifier "x")) (links Sample.returning)
     = true
  /\ convert Sample.returning
     = SwitchStatement (Identifier "x")
         [ switchCase (Some (StringLiteral "a"))
                      [ReturnStatement (Some (NumericLiteral 1))];
           switchCase (Some (StringLiteral "b"))
                      [Sample.call "g"; BreakStatement];
           switchCase None [Sample.call "h"; ReturnStatement None] ]
  /\ exists cs,
       convert Sample.returning = SwitchStatement (Identifier "x") cs
       /\ length cs
          = length (links Sample.returning)
            + match trailingElse Sample.returning with
              | Some _ => 1
              | None => 0
              end
       /\ (forall i link,
             nth_error (links Sample.returning) i = Some link ->
             exists d' v body,
               toSwitch (fst link) = Some (d', v)
               /\ areEqual (Identifier "x") d' = true
               /\ nth_error cs i = Some (switchCase (Some v) body)
               /\ Shape.keptOrBreakAppended (snd link) body)
       /\ (forall statement,
             trailingElse Sample.returning = Some statement ->
             exists body,
               nth_error cs (length (links Sample.returning))
               = Some (switchCase None body)
               /\ Shape.keptOrBreakAppended statement body).
Proof.
  split; [reflexivity|]. split; [reflexivity|]. split; [reflexivity|].
  exact (convert_chain_to_switch
           (Sample.loc 1 0 7 1)
           (Sample.equals "x" (StringLiteral "a"))
           (BlockStatement [ReturnStatement (Some (NumericLiteral 1))])
           (Some (IfStatement (Sample.loc 3 7 7 1)
                    (Sample.equals "x" (StringLiteral "b"))
                    (Sample.call "g")
                    (Some (BlockStatement
                             [Sample.call "h"; ReturnStatement None]))))
           (Identifier "x") eq_refl eq_refl).
Defined.

Lemma convert_discriminant_disagreement_witness :
  firstDiscriminant (links Sample.differentDiscriminants) = Some (Identifier "x")
  /\ In (Sample.equals "y" (StringLiteral "b"), Sample.call "g")
        (links Sample.differentDiscriminants)
  /\ toSwitch (Sample.equals "y" (StringLiteral "b"))
     = Some (Identifier "y", StringLiteral "b")
  /\ areEqual (Identifier "x") (Identifier "y") = false
  /\ convert Sample.differentDiscriminants = Sample.differentDiscriminants.
Proof.
  split; [reflexivity|]. split; [right; left; reflexivity|].
  split; [reflexivity|]. split; [reflexivity|].
  apply (convert_discriminant_disagreement
           (Sample.loc 1 0 2 24)
           (Sample.equals "x" (StringLiteral "a")) (Sample.call "f")
           (Some (IfStatement (Sample.loc 2 5 2 24)
                    (Sample.equals "y" (StringLiteral "b"))
                    (Sample.call "g") None))
           (Identifier "x")
           (Sample.equals "y" (StringLiteral "b"), Sample.call "g")
           (Identifier "y") (StringLiteral "b"));
    [reflexivity|right; left; reflexivity|reflexivity|reflexivity].
Defined.

(** On [if (x === 'a') f(); else if (y === 'b') g();] the flag is true
    after the first link and false after the second, and the
    discriminant stays [x]. *)
Lemma run_invariants_witness :
  1 <= 2
  /\ nth_error (init :: trace Sample.differentDiscriminants init) 1
     = Some {| discriminant := Some (Identifier "x");
               cases := [switchCase (Some (StringLiteral "a"))
                                    [Sample.call "f"; BreakStatement]];
               canConvertAllBranches := true |}
  /\ nth_error (init :: trace Sample.differentDiscriminants init) 2
     = Some {| discriminant := Some (Identifier "x");
               cases := [switchCase (Some (StringLiteral "a"))
                                    [Sample.call "f"; BreakStatement];
                         switchCase (Some (StringLiteral "b"))
                                    [Sample.call "g"; BreakStatement]];
               canConvertAllBranches := false |}
  /\ ((true = false -> false = false)
      /\ (forall d, Some (Identifier "x") = Some d
                    -> Some (Identifier "x") = Some d)).
Proof.
  split; [lia|]. split; [reflexivity|]. split; [reflexivity|].
  exact (run_invariants (cap := Sample.capability)
           Sample.differentDiscriminants 1 2 _ _
           (le_S 1 1 (le_n 1)) eq_refl eq_refl).
Defined.

End IfElseToSwitchSpec.

(** ** Facts about the traversal *)

Module TraversalFacts.
Import IfElseToSwitch Chain IfElseToSwitchFacts Transformation
       ConvertIfElseToSwitch Context.

Lemma existsb_false {A} (f : A -> bool) (l : list A) :
  existsb f l = false <-> Forall (fun x => f x = false) l.
Proof.
  induction l as [|x l IH]; cbn.
  - split; [constructor|reflexivity].
  - rewrite orb_false_iff, IH. split.
    + intros [Hx Hl]. now constructor.
    + intros H. inversion H; subst. now split.
Qed.

Lemma map_fixed {A} (f : A -> A) (l : list A) :
  Forall (fun x => f x = x) l -> map f l = l.
Proof.
  induction 1 as [|x l Hx _ IH]; cbn; [reflexivity|]. now rewrite Hx, IH.
Qed.

Lemma cases_convertConsequent {cap : Capability} test consequent s :
  cases (convertConsequent test consequent s) = cases s
  \/ exists v,
       cases (convertConsequent test consequent s)
       = cases s ++ [switchCase (Some v) (caseBody consequent)].
Proof.
  unfold convertConsequent.
  destruct (toSwitch test) as [[d' t']|]; [right; exists t'|now left].
  destruct s as [[d|] cs flag]; cbn.
  - now destruct (areEqual d d').
  - now destruct (areEqual d' d').
Qed.

Section WithCapability.
Context {cap : Capability}.

(** Every statement of a case the run adds comes from the body of a link
    or of the trailing [else], or is the appended break. *)
Lemma convertNode_cases_Forall (P : Statement -> Prop) :
  P BreakStatement ->
  forall node s,
    (forall link, In link (links node) ->
                  Forall P (getStatements (snd link))) ->
    (forall e, trailingElse node = Some e -> Forall P (getStatements e)) ->
    Forall (fun c => Forall P (caseConsequent c)) (cases s) ->
    Forall (fun c => Forall P (caseConsequent c)) (cases (convertNode node s)).
Proof.
  intros Hbreak.
  assert (Hbody : forall statement,
             Forall P (getStatements statement) ->
             Forall P (caseBody statement)).
  { intros statement H. unfold caseBody.
    destruct (hasFinalReturn (getStatements statement)); [exact H|].
    apply Forall_app. split; [exact H|]. now repeat constructor. }
  assert (Hcons : forall test consequent s,
             Forall P (getStatements consequent) ->
             Forall (fun c => Forall P (caseConsequent c)) (cases s) ->
             Forall (fun c => Forall P (caseConsequent c))
                    (cases (convertConsequent test consequent s))).
  { intros test consequent s Hc Hs.
    destruct (cases_convertConsequent test consequent s) as [->|[v ->]];
      [exact Hs|].
    apply Forall_app. split; [exact Hs|].
    constructor; [|constructor]. cbn. now apply Hbody. }
  induction node as [s' Hs'|loc test consequent|loc test consequent alt IH]
    using chain_ind; intros s Hlinks Helse Hs.
  - destruct s'; try discriminate; exact Hs.
  - cbn. apply Hcons; [|exact Hs].
    apply (Hlinks (test, consequent)). now left.
  - cbn [convertNode convertAlternate].
    assert (H1 := Hcons test consequent s
                    (Hlinks (test, consequent) (or_introl eq_refl)) Hs).
    destruct (isIfStatement alt) eqn:Halt.
    + apply IH; [| |exact H1].
      * intros link Hin. apply Hlinks. cbn [links]. now right.
      * intros e He. apply Helse. cbn [trailingElse]. now rewrite Halt.
    + unfold addDefault, addCase, pushCase. cbn.
      apply Forall_app. split; [exact H1|].
      constructor; [|constructor]. cbn. apply Hbody, Helse.
      cbn [trailingElse]. now rewrite Halt.
Qed.

Variable selection : Editor.Selection.

Lemma matchesSelection_conditional loc test consequent alternate :
  let node := IfStatement loc test consequent alternate in
  matchesSelection selection node
  = childMatches selection node
    || hasChildWhichMatchesSelection selection node.
Proof.
  cbn. now rewrite orb_assoc.
Qed.

Lemma noMatch_getStatements statement :
  matchesSelection selection statement = false ->
  Forall (noMatch selection) (getStatements statement).
Proof.
  intros H. destruct statement; cbn;
    try (constructor; [exact H|constructor]).
  cbn in H. now apply existsb_false.
Qed.

(** Below a conditional statement without a matching child, no body of
    the chain has a match. *)
Lemma noMatch_below node :
  isIfStatement node = true ->
  hasChildWhichMatchesSelection selection node = false ->
  (forall link, In link (links node) ->
                matchesSelection selection (snd link) = false)
  /\ (forall e, trailingElse node = Some e ->
                matchesSelection selection e = false).
Proof.
  induction node as [s' Hs'|loc test consequent|loc test consequent alt IH]
    using chain_ind; intros Hif Hno.
  - congruence.
  - cbn in Hno. rewrite orb_false_r in Hno. split.
    + intros link [<-|[]]. exact Hno.
    + discriminate.
  - cbn [hasChildWhichMatchesSelection] in Hno.
    apply orb_false_iff in Hno as [Hc Ha].
    cbn [links trailingElse].
    destruct (isIfStatement alt) eqn:Halt.
    + assert (Hbelow : hasChildWhichMatchesSelection selection alt = false).
      { destruct alt; try discriminate.
        rewrite matchesSelection_conditional in Ha.
        now apply orb_false_iff in Ha. }
      destruct (IH eq_refl Hbelow) as [IHl IHe]. split.
      * intros link [<-|Hin]; [exact Hc|now apply IHl].
      * exact IHe.
    + split.
      * intros link [<-|Hin]; [exact Hc|].
        destruct alt; try discriminate; destruct Hin.
      * intros e [= <-]. exact Ha.
Qed.

(** A conditional statement that has no match is left alone by the
    visitor. *)
Lemma IfStatementVisitor_noMatch loc test consequent alternate :
  let node := IfStatement loc test consequent alternate in
  matchesSelection selection node = false ->
  IfStatementVisitor selection node = node.
Proof.
  intros node H. unfold node in H.
  rewrite matchesSelection_conditional in H. fold node in H.
  apply orb_false_iff in H as [Hchild _].
  unfold IfStatementVisitor. unfold childMatches in Hchild.
  destruct (isInsidePath selection node); [|reflexivity].
  cbn [negb] in *.
  destruct (hasChildWhichMatchesSelection selection node); [reflexivity|].
  apply (convert_same_node loc test consequent alternate). fold node.
  destruct (isSwitchStatement (convert node)); [discriminate|reflexivity].
Qed.

(** The traversal leaves a statement without a match as it is. *)
Lemma traverseStatement_noMatch fuel :
  forall s,
    matchesSelection selection s = false ->
    traverseStatement (IfStatementVisitor selection) fuel s = s.
Proof.
  induction fuel as [|fuel IH]; intros s H; [reflexivity|].
  cbn [traverseStatement].
  destruct s as [loc test consequent alternate|d cs|body| | |];
    cbn [isIfStatement]; try reflexivity.
  - rewrite IfStatementVisitor_noMatch by exact H.
    cbn in H.
    apply orb_false_iff in H as [H Ha].
    apply orb_false_iff in H as [_ Hc].
    cbn [descend]. rewrite (IH _ Hc).
    destruct alternate as [alt|]; cbn; [|reflexivity].
    now rewrite (IH _ Ha).
  - cbn in H. apply existsb_false in H.
    cbn [descend]. f_equal. apply map_fixed.
    eapply Forall_impl; [|exact H].
    intros [t body] Hbody. cbn in *. f_equal.
    apply map_fixed. apply existsb_false in Hbody.
    eapply Forall_impl; [|exact Hbody]. intros a Ha. now apply IH.
  - cbn in H. apply existsb_false in H.
    cbn [descend]. f_equal. apply map_fixed.
    eapply Forall_impl; [|exact H]. intros a Ha. now apply IH.
Qed.

Lemma traverse_noMatch program :
  Forall (noMatch selection) program ->
  traverse (IfStatementVisitor selection) program = program.
Proof.
  intros H. unfold traverse. apply map_fixed.
  eapply Forall_impl; [|exact H].
  intros s Hs. now apply traverseStatement_noMatch.
Qed.




(** The visitor converts an innermost match. *)
Lemma IfStatementVisitor_converts path :
  isInsidePath selection path = true ->
  hasChildWhichMatchesSelection selection path = false ->
  IfStatementVisitor selection path = convert path.
Proof.
  intros Hin Hno. unfold IfStatementVisitor. now rewrite Hin, Hno.
Qed.

(** The switch built from an innermost match has no match inside. *)
Lemma convert_noMatch node :
  isIfStatement node = true ->
  hasChildWhichMatchesSelection selection node = false ->
  Forall (fun c => Forall (noMatch selection) (caseConsequent c))
         (cases (convertNode node init)).
Proof.
  intros Hif Hno.
  destruct (noMatch_below node Hif Hno) as [Hlinks Helse].
  apply convertNode_cases_Forall.
  - reflexivity.
  - intros link Hin. now apply noMatch_getStatements, Hlinks.
  - intros e He. now apply noMatch_getStatements, Helse.
  - constructor.
Qed.

Lemma traverseStatement_innermost fuel nested :
  isIfStatement nested = true ->
  isInsidePath selection nested = true ->
  hasChildWhichMatchesSelection selection nested = false ->
  traverseStatement (IfStatementVisitor selection) (S fuel) nested
  = convert nested.
Proof.
  intros Hif Hin Hno. cbn [traverseStatement].
  rewrite Hif, (IfStatementVisitor_converts nested Hin Hno).
  destruct (convert_cases nested) as [E|(d & _ & _ & E)].
  - rewrite E.
    destruct nested as [loc test consequent alternate| | | | |];
      try discriminate.
    assert (H : matchesSelection selection
                  (IfStatement loc test consequent alternate) = false).
    { rewrite matchesSelection_conditional, Hno.
      unfold childMatches. rewrite Hin, E. reflexivity. }
    cbn in H.
    apply orb_false_iff in H as [H Ha].
    apply orb_false_iff in H as [_ Hc].
    cbn [descend]. rewrite (traverseStatement_noMatch fuel _ Hc).
    destruct alternate as [alt|]; cbn; [|reflexivity].
    now rewrite (traverseStatement_noMatch fuel _ Ha).
  - rewrite E. cbn [descend]. f_equal. apply map_fixed.
    eapply Forall_impl; [|exact (convert_noMatch nested Hif Hno)].
    intros [t body] Hbody. cbn in *. f_equal. apply map_fixed.
    eapply Forall_impl; [|exact Hbody].
    intros a Ha. now apply traverseStatement_noMatch.
Qed.


Lemma list_max_In (l : list nat) n : In n l -> n <= list_max l.
Proof.
  intros H.
  pose proof (proj1 (list_max_le l (list_max l)) (le_n _)) as Hall.
  rewrite Forall_forall in Hall. now apply Hall.
Qed.

Lemma depth_positive s : 1 <= depth s.
Proof. destruct s; cbn; lia. Qed.



(** *** The fuel of the traversal is enough *)

Lemma depth_getStatements statement :
  Forall (fun st => depth st <= depth statement) (getStatements statement).
Proof.
  destruct statement; cbn [getStatements];
    try (constructor; [lia|constructor]).
  apply Forall_forall. intros st Hin. cbn [depth].
  apply le_S, list_max_In, in_map, Hin.
Qed.

Lemma depth_links node :
  (forall link, In link (links node) -> depth (snd link) < depth node)
  /\ (forall e, trailingElse node = Some e -> depth e < depth node).
Proof.
  induction node as [s' Hs'|loc test consequent|loc test consequent alt IH]
    using chain_ind.
  - destruct s'; try discriminate; (split; [intros ? []|discriminate]).
  - split; [|discriminate]. intros link [<-|[]]. cbn. lia.
  - destruct IH as [IHl IHe]. cbn [links trailingElse depth]. split.
    + intros link [<-|Hin]; [cbn; lia|]. specialize (IHl link Hin). lia.
    + destruct (isIfStatement alt).
      * intros e He. specialize (IHe e He). lia.
      * intros e [= <-]. lia.
Qed.

(** The switch [convert] builds is no deeper than the chain it replaces. *)
Lemma depth_convert loc test consequent alternate :
  let node := IfStatement loc test consequent alternate in
  depth (convert node) <= depth node.
Proof.
  intros node.
  destruct (convert_cases node) as [->|(d & _ & _ & ->)]; [lia|].
  cbn [depth]. destruct (depth_links node) as [Hlinks Helse].
  assert (Hdeep : 2 <= depth node)
    by (pose proof (depth_positive consequent); cbn; lia).
  assert (H : Forall (fun c => Forall (fun st => S (depth st) <= depth node)
                                      (caseConsequent c))
                     (cases (convertNode node init))).
  { apply convertNode_cases_Forall.
    - exact Hdeep.
    - intros link Hin. specialize (Hlinks link Hin).
      eapply Forall_impl; [|apply depth_getStatements].
      cbn beta. intros st Hst. lia.
    - intros e He. specialize (Helse e He).
      eapply Forall_impl; [|apply depth_getStatements].
      cbn beta. intros st Hst. lia.
    - constructor. }
  destruct (depth node) as [|n] eqn:Hn; [lia|].
  apply le_n_S, list_max_le, Forall_map.
  eapply Forall_impl; [|exact H].
  intros c Hc. cbn beta in *. apply list_max_le, Forall_map.
  eapply Forall_impl; [|exact Hc]. cbn beta. intros st Hst. lia.
Qed.

Lemma depth_IfStatementVisitor loc test consequent alternate :
  let node := IfStatement loc test consequent alternate in
  depth (IfStatementVisitor selection node) <= depth node.
Proof.
  intros node. unfold IfStatementVisitor.
  destruct (negb (isInsidePath selection node)); [lia|].
  destruct (hasChildWhichMatchesSelection selection node); [lia|].
  apply depth_convert.
Qed.

(** Two traversals that agree on the statements below a node agree on
    the node. *)
Lemma descend_ext (f g : Statement -> Statement) s n :
  depth s <= S n ->
  (forall c, depth c <= n -> f c = g c) ->
  descend f s = descend g s.
Proof.
  intros Hs Hfg.
  destruct s as [loc test consequent alternate|d cs|body| | |];
    cbn [descend]; try reflexivity; cbn [depth] in Hs;
    apply le_S_n in Hs.
  - f_equal.
    + apply Hfg. lia.
    + destruct alternate as [alt|]; cbn; [|reflexivity].
      f_equal. apply Hfg. lia.
  - f_equal. apply map_ext_in. intros c Hc. f_equal.
    apply map_ext_in. intros st Hst. apply Hfg.
    etransitivity; [|exact Hs].
    etransitivity; [apply list_max_In, in_map, Hst|].
    apply list_max_In.
    apply (in_map (fun c => list_max (map depth (caseConsequent c)))).
    exact Hc.
  - f_equal. apply map_ext_in. intros st Hst. apply Hfg.
    etransitivity; [|exact Hs]. apply list_max_In, in_map, Hst.
Qed.

(** Fuel beyond the depth of the statement does not change the result:
    with [depth s] the traversal reaches every statement. *)
Lemma traverseStatement_fuel fuel1 :
  forall fuel2 s,
    depth s <= fuel1 -> depth s <= fuel2 ->
    traverseStatement (IfStatementVisitor selection) fuel1 s
    = traverseStatement (IfStatementVisitor selection) fuel2 s.
Proof.
  induction fuel1 as [|fuel1 IH]; intros fuel2 s H1 H2.
  - pose proof (depth_positive s). lia.
  - destruct fuel2 as [|fuel2]; [pose proof (depth_positive s); lia|].
    cbn [traverseStatement].
    set (node := if isIfStatement s
                 then IfStatementVisitor selection s else s).
    assert (Hnode : depth node <= depth s).
    { unfold node. destruct s; cbn [isIfStatement]; try lia.
      apply depth_IfStatementVisitor. }
    apply (descend_ext _ _ node (Nat.min fuel1 fuel2)); [lia|].
    intros c Hc. apply IH; lia.
Qed.

End WithCapability.

End TraversalFacts.

(** ** The refactoring: the specification's properties *)

Module ConvertIfElseToSwitchSpec.
Import IfElseToSwitch Chain IfElseToSwitchFacts Transformation
       ConvertIfElseToSwitch Context TraversalFacts.

Section WithCapability.
Context {cap : Capability}.
Variable selection : Editor.Selection.

Lemma hasIfElseToConvert_unfold code :
  hasIfElseToConvert selection code
  = negb (String.eqb (Transformation.code (updateCode selection code))
                     (print (parse code))).
Proof. reflexivity. Qed.

(** Nothing to convert: the text is printed as it was parsed. *)
Lemma updateCode_noMatch code :
  Forall (noMatch selection) (parse code) ->
  updateCode selection code
  = {| code := print (parse code); hasCodeChanged := false |}.
Proof.
  intros H. unfold updateCode, transform.
  rewrite (traverse_noMatch selection _ H).
  now rewrite String.eqb_refl.
Qed.



(** C5, as the code has it.  [hasIfElseToConvert] is true exactly when
    [convertIfElseToSwitch] writes a text (and false exactly when it
    shows the error), and the text written is one that differs from the
    printed text of the parsed input, which is the input itself when the
    printer reproduces it; and on the text a conversion returned it is
    false when no conditional statement of that text matches the
    selection and converts. *)
Theorem hasIfElseToConvert_iff_changed code :
  (hasIfElseToConvert selection code = true
   <-> convertIfElseToSwitch selection code
       = write (Transformation.code (updateCode selection code)))
  /\ (hasIfElseToConvert selection code = false
      <-> convertIfElseToSwitch selection code
          = showError_DidNotFoundIfElseToConvert)
  /\ (hasIfElseToConvert selection code = true
      <-> Transformation.code (updateCode selection code)
          <> print (parse code))
  /\ (print (parse code) = code ->
      (hasIfElseToConvert selection code = true
       <-> Transformation.code (updateCode selection code) <> code))
  /\ (let output := Transformation.code (updateCode selection code) in
      Forall (noMatch selection) (parse output) ->
      hasIfElseToConvert selection output = false).
Proof.
  assert (Hiff : hasIfElseToConvert selection code = true
                 <-> Transformation.code (updateCode selection code)
                     <> print (parse code)).
  { rewrite hasIfElseToConvert_unfold, negb_true_iff.
    now rewrite String.eqb_neq. }
  split; [|split; [|split; [exact Hiff|split]]].
  - unfold convertIfElseToSwitch, hasIfElseToConvert.
    destruct (hasCodeChanged (updateCode selection code)); cbn;
      split; congruence.
  - unfold convertIfElseToSwitch, hasIfElseToConvert.
    destruct (hasCodeChanged (updateCode selection code)); cbn;
      split; congruence.
  - intros Hround. now rewrite Hround in Hiff.
  - intros output Hno. unfold hasIfElseToConvert.
    now rewrite (updateCode_noMatch output Hno).
Qed.

End WithCapability.

#[local] Existing Instance Sample.capability.





(** After the nested chain has been converted, the outer chain, which
    still matches the same selection, is convertible: the applicability
    check is true again on the output. *)
Lemma outer_chain_remains_convertible :
  let selection := Editor.cursorAt 1 4 in
  hasIfElseToConvert selection Sample.nestedCode = true
  /\ Transformation.code (updateCode selection Sample.nestedCode)
     = Sample.nestedConvertedCode
  /\ hasIfElseToConvert selection Sample.nestedConvertedCode = true.
Proof.
  intros selection. repeat split; vm_compute; reflexivity.
Qed.

(** [if (x > 1) g(); else if (x === 'b') h();], cursor on the
    [else if]: the text changes, and the applicability check is false on
    the output. *)
Lemma hasIfElseToConvert_iff_changed_witness :
  let selection := Editor.cursorAt 1 7 in
  let code := Sample.elseIfTailCode in
  print (parse code) = code
  /\ Forall (noMatch selection)
            (parse (Transformation.code (updateCode selection code)))
  /\ hasIfElseToConvert selection code = true
  /\ Transformation.code (updateCode selection code) <> code
  /\ hasIfElseToConvert selection
       (Transformation.code (updateCode selection code)) = false.
Proof.
  intros selection code.
  pose proof (hasIfElseToConvert_iff_changed selection code)
    as (_ & _ & _ & Hiff & Hout).
  assert (Hround : print (parse code) = code) by reflexivity.
  assert (Hno : Forall (noMatch selection)
                  (parse (Transformation.code (updateCode selection code))))
    by (repeat constructor).
  split; [exact Hround|]. split; [exact Hno|].
  split; [reflexivity|].
  split; [apply (proj1 (Hiff Hround)); reflexivity|].
  exact (Hout Hno).
Defined.

End ConvertIfElseToSwitchSpec.

(** ** Occurrences: the specification's properties *)

Module OccurrenceSpec.
Import Occurrence.

(** *** Positions *)

Lemma isSameOrBefore_line p q :
  Editor.isSameOrBefore p q = true -> (Editor.line p <= Editor.line q)%Z.
Proof.
  unfold Editor.isSameOrBefore, Editor.isBefore, Editor.isEqualTo.
  rewrite !orb_true_iff, !andb_true_iff, Z.ltb_lt, !Z.eqb_eq. lia.
Qed.

Lemma isInside_lines this other :
  Editor.isInside this other = true ->
  (Editor.line (Editor.start other) <= Editor.line (Editor.start this))%Z
  /\ (Editor.line (Editor.end_ this) <= Editor.line (Editor.end_ other))%Z.
Proof.
  unfold Editor.isInside. rewrite andb_true_iff.
  intros [Hs He]. split; now apply isSameOrBefore_line.
Qed.

(** A selection that spans several lines makes every selection it lies
    within span several lines. *)
Lemma isMultiLines_isInside this other :
  Editor.isSameOrBefore (Editor.start this) (Editor.end_ this) = true ->
  Editor.isMultiLines this = true ->
  Editor.isInside this other = true ->
  Editor.isMultiLines other = true.
Proof.
  intros Hord Hmulti Hin.
  apply isSameOrBefore_line in Hord.
  apply isInside_lines in Hin as [Hs He].
  unfold Editor.isMultiLines, Editor.isSameLineThan in *.
  rewrite negb_true_iff, Z.eqb_neq in *. lia.
Qed.

Lemma isInside_trans a b c :
  Editor.isInside a b = true -> Editor.isInside b c = true ->
  Editor.isInside a c = true.
Proof.
  assert (Htrans : forall p q r,
             Editor.isSameOrBefore p q = true ->
             Editor.isSameOrBefore q r = true ->
             Editor.isSameOrBefore p r = true).
  { intros p q r.
    unfold Editor.isSameOrBefore, Editor.isBefore, Editor.isEqualTo.
    rewrite !orb_true_iff, !andb_true_iff, !Z.ltb_lt, !Z.eqb_eq. lia. }
  unfold Editor.isInside. rewrite !andb_true_iff.
  intros [H1 H2] [H3 H4]. split; eapply Htrans; eassumption.
Qed.

Lemma findIndex_Some {A} (f : A -> bool) (l : list A) :
  forall index,
    findIndex f l = Some index ->
    exists x, nth_error l index = Some x /\ f x = true.
Proof.
  induction l as [|y l IH]; intros index; cbn; [discriminate|].
  destruct (f y) eqn:Hy.
  - intros [= <-]. now exists y.
  - destruct (findIndex f l) as [i|]; [|discriminate].
    intros [= <-]. now apply IH.
Qed.

Section WithDependencies.
Context {deps : Dependencies}.

(** C7.  On a member access that is not computed,
    [toVariableDeclaration] gives the name in braces and the printed
    object under the strategy "destructure", and the plain name and the
    extracted code under "preserve"; on a computed access it gives what
    the generic occurrence gives, whatever the strategy. *)
Theorem member_expression_declaration
        parent nodeLoc loc variable object property code :
  let path c :=
    mkNodePath (ExpressionNode (MemberExpression object property c))
               nodeLoc parent in
  let occurrence c s :=
    mkOccurrence (MemberExpressionOccurrence s) (path c) loc variable in
  toVariableDeclaration (occurrence false Destructure) code
  = ret (mkVariableDeclaration ("{ " ++ name variable ++ " }")%string
                               (generate object))
  /\ toVariableDeclaration (occurrence false Preserve) code
     = ret (mkVariableDeclaration (name variable) code)
  /\ forall s,
       toVariableDeclaration (occurrence true s) code
       = toVariableDeclaration (Occurrence_new (path true) loc variable) code
       /\ toVariableDeclaration (occurrence true s) code
          = ret (mkVariableDeclaration (name variable) code).
Proof.
  intros path occurrence. repeat split.
Qed.

(** C8.  A fresh member-expression occurrence has the strategy
    "destructure".  When the prompt is dismissed,
    [askModificationDetails] returns the occurrence as it was, and
    [toVariableDeclaration] then returns the declaration of the default
    strategy, not a failure.  Whatever the editor, the strategy differs
    from the default afterwards only if the prompt returned a choice, and
    then it is the value of that choice. *)
Theorem dismissed_prompt_keeps_default editor path loc variable code :
  let this := MemberExpressionOccurrence_new path loc variable in
  askUser editor (choices this) = None ->
  destructureStrategy this = Some Destructure
  /\ askModificationDetails editor this = this
  /\ toVariableDeclaration (askModificationDetails editor this) code
     = ret (MemberExpressionOccurrence_toVariableDeclaration this code)
  /\ (computed this = false ->
      toVariableDeclaration (askModificationDetails editor this) code
      = ret (mkVariableDeclaration ("{ " ++ name variable ++ " }")%string
                                   (parentObject this)))
  /\ (forall editor' s,
         destructureStrategy (askModificationDetails editor' this) = Some s ->
         s <> Destructure ->
         exists choice,
           askUser editor' (choices this) = Some choice
           /\ value choice = s).
Proof.
  intros this Hnone.
  assert (Hask : askModificationDetails editor this = this).
  { unfold askModificationDetails,
      MemberExpressionOccurrence_askModificationDetails.
    cbn [class this MemberExpressionOccurrence_new]. now rewrite Hnone. }
  split; [reflexivity|]. split; [exact Hask|].
  split; [now rewrite Hask|]. split.
  - intros Hcomputed. rewrite Hask.
    unfold toVariableDeclaration,
      MemberExpressionOccurrence_toVariableDeclaration.
    cbn [class this MemberExpressionOccurrence_new].
    now rewrite Hcomputed.
  - intros editor' s Hs Hneq.
    unfold askModificationDetails,
      MemberExpressionOccurrence_askModificationDetails in Hs.
    cbn [class this MemberExpressionOccurrence_new] in Hs.
    destruct (askUser editor' (choices this)) as [choice|] eqn:Hchoice.
    + exists choice. split; [reflexivity|].
      cbn in Hs. now injection Hs.
    + cbn in Hs. congruence.
Qed.

(** The validity check rejects on the range alone. *)
Lemma isValid_multi_lines path loc userSelection :
  Editor.isMultiLines (Editor.Selection_fromAST loc) = true ->
  PartialTemplateLiteralOccurrence_isValid path loc userSelection = false.
Proof.
  intros H. unfold PartialTemplateLiteralOccurrence_isValid. now rewrite H.
Qed.

(** Without a valid partial variant, no occurrence is of that class. *)
Lemma createOccurrenceWithin_not_partial loc selection :
  (forall path,
      PartialTemplateLiteralOccurrence_isValid path loc selection = false) ->
  forall fuel path o,
    createOccurrenceWithin fuel path loc selection = ret o ->
    forall s, class o <> PartialTemplateLiteralOccurrence s.
Proof.
  intros Hinvalid.
  induction fuel as [|fuel IH]; intros path o; cbn [createOccurrenceWithin];
    destruct (canBeShorthand path);
    try destruct (isValid (ShorthandVariable (node path) (parent path)));
    try (intros [= <-] s; discriminate);
    destruct (isMemberExpression path);
    try (intros [= <-] s; discriminate);
    destruct (isStringLiteral path);
    try (destruct (negb (Editor.isEmpty selection)
                   && isStrictlyInsidePath selection path));
    try (intros [= <-] s; discriminate);
    try discriminate;
    try (destruct (convertStringToTemplateLiteral (node path) loc)
          as [[templateLoc qs] es]; apply IH);
    rewrite Hinvalid, andb_false_r; intros [= <-] s; discriminate.
Qed.

(** C9.  Let the user's selection lie within a text segment of the
    template literal, the segment within the range [loc] of the literal,
    and let the selection span more than one line.  Then the validity
    check of the partial variant is false, and it is false for [loc]
    whatever the path holds, that is, whether the trial construction
    would succeed or fail; no occurrence of the partial variant comes
    out of [createOccurrence]. *)
Theorem multi_line_selection_is_rejected
        path loc userSelection quasi quasiLoc :
  In quasi (quasis (node path)) ->
  elementLoc quasi = Some quasiLoc ->
  Editor.isInside userSelection (Editor.Selection_fromAST quasiLoc) = true ->
  Editor.isInside (Editor.Selection_fromAST quasiLoc)
                  (Editor.Selection_fromAST loc) = true ->
  Editor.isSameOrBefore (Editor.start userSelection)
                        (Editor.end_ userSelection) = true ->
  Editor.isMultiLines userSelection = true ->
  PartialTemplateLiteralOccurrence_isValid path loc userSelection = false
  /\ (forall path',
         PartialTemplateLiteralOccurrence_isValid path' loc userSelection
         = false)
  /\ (forall o,
         createOccurrence path loc userSelection = ret o ->
         forall s, class o <> PartialTemplateLiteralOccurrence s).
Proof.
  intros _ _ Hquasi Hloc Hord Hmulti.
  assert (H : Editor.isMultiLines (Editor.Selection_fromAST loc) = true).
  { eapply isMultiLines_isInside; [exact Hord|exact Hmulti|].
    eapply isInside_trans; eassumption. }
  split; [now apply isValid_multi_lines|].
  split; [intros path'; now apply isValid_multi_lines|].
  intros o. apply createOccurrenceWithin_not_partial.
  intros path'. now apply isValid_multi_lines.
Qed.

(** The two ways the getter [selectedQuasi] throws. *)
Lemma selectedQuasi_throws this :
  findIndex (isInsideNode (userSelection this)) (quasis (node (path this)))
  = None
  \/ (exists index result,
         findIndex (isInsideNode (userSelection this))
                   (quasis (node (path this))) = Some index
         /\ nth_error (quasis (node (path this))) index = Some result
         /\ elementLoc result = None) ->
  exists message, selectedQuasi this = throw message.
Proof.
  unfold selectedQuasi.
  intros [->|(index & result & -> & -> & ->)]; eexists; reflexivity.
Qed.

(** C10.  On a template literal that the shorthand rule does not take,
    when no segment is found to contain the selection, or the segment
    found has no source range, the construction of the partial variant
    throws, the validity check catches it and answers false, and
    [createOccurrence] returns the generic occurrence, not an error. *)
Theorem failed_probe_falls_through path loc selection qs es :
  node path = ExpressionNode (TemplateLiteral qs es) ->
  canBeShorthand path
  && isValid (ShorthandVariable (node path) (parent path)) = false ->
  findIndex (isInsideNode selection) qs = None
  \/ (exists index result,
         findIndex (isInsideNode selection) qs = Some index
         /\ nth_error qs index = Some result
         /\ elementLoc result = None) ->
  (exists message,
      PartialTemplateLiteralOccurrence_new path loc selection = throw message)
  /\ PartialTemplateLiteralOccurrence_isValid path loc selection = false
  /\ createOccurrence path loc selection
     = ret (Occurrence_new path loc
              (GenericVariable (node path) (parent path))).
Proof.
  intros Hnode Hshort Hfail.
  assert (Hnew : exists message,
             PartialTemplateLiteralOccurrence_new path loc selection
             = throw message).
  { unfold PartialTemplateLiteralOccurrence_new, parts.
    set (this := mkOccurrence _ _ _ _).
    destruct (selectedQuasi_throws this) as [message Hq].
    - unfold this. cbn [userSelection class Occurrence.path].
      now rewrite Hnode.
    - rewrite Hq. now exists message. }
  assert (Hvalid : PartialTemplateLiteralOccurrence_isValid path loc selection
                   = false).
  { unfold PartialTemplateLiteralOccurrence_isValid.
    destruct Hnew as [message ->].
    now destruct (Editor.isMultiLines (Editor.Selection_fromAST loc)). }
  split; [exact Hnew|]. split; [exact Hvalid|].
  unfold createOccurrence. cbn [createOccurrenceWithin].
  assert (Hrule1 :
            (if canBeShorthand path
             then if isValid (ShorthandVariable (node path) (parent path))
                  then Some (mkOccurrence ShorthandOccurrence path loc
                               (ShorthandVariable (node path) (parent path)))
                  else None
             else None) = None).
  { destruct (canBeShorthand path); [|reflexivity].
    cbn in Hshort. now rewrite Hshort. }
  rewrite Hrule1.
  unfold isMemberExpression, isStringLiteral, isTemplateLiteral.
  rewrite Hnode, Hvalid. now rewrite andb_false_r.
Qed.

(** [createOccurrence] returns an occurrence on every input: the string
    rule re-enters once, and the partial variant is built only after the
    same construction has succeeded in the validity check. *)
Lemma createOccurrence_returns path loc selection :
  exists o, createOccurrence path loc selection = ret o.
Proof.
  assert (Hpartial : forall p,
             PartialTemplateLiteralOccurrence_isValid p loc selection = true ->
             exists o,
               PartialTemplateLiteralOccurrence_new p loc selection = ret o).
  { intros p. unfold PartialTemplateLiteralOccurrence_isValid.
    destruct (Editor.isMultiLines (Editor.Selection_fromAST loc));
      [discriminate|].
    destruct (PartialTemplateLiteralOccurrence_new p loc selection) as [m|o];
      [discriminate|].
    intros _. now exists o. }
  assert (Hrest : forall p,
             isStringLiteral p = false ->
             forall fuel, exists o,
               createOccurrenceWithin fuel p loc selection = ret o).
  { intros p Hp fuel.
    destruct fuel; cbn [createOccurrenceWithin];
      destruct (canBeShorthand p);
      try destruct (isValid (ShorthandVariable (node p) (parent p)));
      try (eexists; reflexivity);
      destruct (isMemberExpression p); try (eexists; reflexivity);
      rewrite Hp;
      destruct (isTemplateLiteral p); cbn [andb];
      try (eexists; reflexivity);
      destruct (negb (Editor.isEmpty selection)); cbn [andb];
      try (eexists; reflexivity);
      destruct (PartialTemplateLiteralOccurrence_isValid p loc selection)
        eqn:Hvalid;
      try (eexists; reflexivity);
      now apply Hpartial. }
  destruct (isStringLiteral path) eqn:Hstring; [|now apply Hrest].
  unfold createOccurrence. cbn [createOccurrenceWithin].
  destruct (canBeShorthand path);
    try destruct (isValid (ShorthandVariable (node path) (parent path)));
    try (eexists; reflexivity);
    destruct (isMemberExpression path); try (eexists; reflexivity);
    rewrite Hstring;
    destruct (negb (Editor.isEmpty selection)
              && isStrictlyInsidePath selection path);
    try (eexists; reflexivity);
    destruct (convertStringToTemplateLiteral (node path) loc)
      as [[templateLoc qs] es];
    exact (Hrest (replaceWith (ExpressionNode (TemplateLiteral qs es))
                              templateLoc path) eq_refl 0).
Qed.

End WithDependencies.

#[local] Existing Instance Sample.dependencies.

(** [const copy = obj.value;], extracting [obj.value]: "destructure"
    declares [{ value }] with value [obj], "preserve" declares [value]
    with value [obj.value]; on [obj[value]] both give the generic
    declaration. *)
Lemma obj_value_declarations :
  let variable :=
    MemberExpressionVariable (node Sample.objValue)
                             (parent Sample.objValue) in
  let occurrence p s :=
    mkOccurrence (MemberExpressionOccurrence s) p Sample.objValueLoc
                 variable in
  toVariableDeclaration (occurrence Sample.objValue Destructure) "obj.value"
  = ret (mkVariableDeclaration "{ value }" "obj")
  /\ toVariableDeclaration (occurrence Sample.objValue Preserve) "obj.value"
     = ret (mkVariableDeclaration "value" "obj.value")
  /\ toVariableDeclaration (occurrence Sample.objValueComputed Destructure)
                           "obj[value]"
     = ret (mkVariableDeclaration "value" "obj[value]")
  /\ toVariableDeclaration (occurrence Sample.objValueComputed Preserve)
                           "obj[value]"
     = ret (mkVariableDeclaration "value" "obj[value]").
Proof.
  intros variable occurrence.
  pose proof (member_expression_declaration
                (parent Sample.objValue) (nodeLoc Sample.objValue)
                Sample.objValueLoc variable
                (Identifier "obj") (Identifier "value") "obj.value")
    as (Hdestructure & Hpreserve & _).
  pose proof (member_expression_declaration
                (parent Sample.objValueComputed)
                (nodeLoc Sample.objValueComputed)
                Sample.objValueLoc variable
                (Identifier "obj") (Identifier "value") "obj[value]")
    as (_ & _ & Hcomputed).
  split; [exact Hdestructure|]. split; [exact Hpreserve|].
  split; [exact (proj2 (Hcomputed Destructure))
         |exact (proj2 (Hcomputed Preserve))].
Defined.

(** The prompt is dismissed on [obj.value]: the declaration is the one of
    "destructure". *)
Lemma dismissed_prompt_keeps_default_witness :
  let variable :=
    MemberExpressionVariable (node Sample.objValue)
                             (parent Sample.objValue) in
  let this :=
    MemberExpressionOccurrence_new Sample.objValue Sample.objValueLoc
                                   variable in
  askUser Sample.dismissingEditor (choices this) = None
  /\ askModificationDetails Sample.dismissingEditor this = this
  /\ toVariableDeclaration
       (askModificationDetails Sample.dismissingEditor this) "obj.value"
     = ret (mkVariableDeclaration "{ value }" "obj").
Proof.
  intros variable this.
  pose proof (dismissed_prompt_keeps_default
                Sample.dismissingEditor Sample.objValue Sample.objValueLoc
                variable "obj.value" eq_refl)
    as (_ & Hsame & _ & Hdeclaration & _).
  split; [reflexivity|]. split; [exact Hsame|].
  exact (Hdeclaration eq_refl).
Defined.

(** The prompt answers "preserve" on [obj.value]. *)
Lemma preserve_answer_overrides :
  let variable :=
    MemberExpressionVariable (node Sample.objValue)
                             (parent Sample.objValue) in
  let this :=
    MemberExpressionOccurrence_new Sample.objValue Sample.objValueLoc
                                   variable in
  destructureStrategy (askModificationDetails Sample.preservingEditor this)
  = Some Preserve
  /\ toVariableDeclaration
       (askModificationDetails Sample.preservingEditor this) "obj.value"
     = ret (mkVariableDeclaration "value" "obj.value").
Proof. split; reflexivity. Qed.

(** A selection from line 0, character 13 to line 1, character 2, inside
    the segment of a template literal over two lines. *)
Lemma multi_line_selection_is_rejected_witness :
  let userSelection :=
    Editor.mkSelection (Editor.mkPosition 0 13) (Editor.mkPosition 1 2) in
  let quasi :=
    templateElementAt ("Hello" ++ Sample.newline ++ "world")%string
                      (Some Sample.twoLinesQuasiLoc) in
  In quasi (quasis (node Sample.twoLines))
  /\ Editor.isInside userSelection
       (Editor.Selection_fromAST Sample.twoLinesQuasiLoc) = true
  /\ Editor.isInside (Editor.Selection_fromAST Sample.twoLinesQuasiLoc)
                     (Editor.Selection_fromAST Sample.twoLinesLoc) = true
  /\ Editor.isMultiLines userSelection = true
  /\ PartialTemplateLiteralOccurrence_isValid
       Sample.twoLines Sample.twoLinesLoc userSelection = false
  /\ createOccurrence Sample.twoLines Sample.twoLinesLoc userSelection
     = ret (Occurrence_new Sample.twoLines Sample.twoLinesLoc
              (GenericVariable (node Sample.twoLines)
                               (parent Sample.twoLines))).
Proof.
  intros userSelection quasi.
  pose proof (multi_line_selection_is_rejected
                Sample.twoLines Sample.twoLinesLoc userSelection
                quasi Sample.twoLinesQuasiLoc
                (or_introl eq_refl) eq_refl eq_refl eq_refl eq_refl eq_refl)
    as (Hinvalid & _ & _).
  split; [left; reflexivity|]. split; [reflexivity|].
  split; [reflexivity|]. split; [reflexivity|].
  split; [exact Hinvalid|reflexivity].
Defined.

(** A selection that starts before the segment of [`Hello world`]: no
    segment contains it. *)
Lemma failed_probe_falls_through_witness :
  let selection :=
    Editor.mkSelection (Editor.mkPosition 0 3) (Editor.mkPosition 0 16) in
  findIndex (isInsideNode selection) (quasis (node Sample.hello)) = None
  /\ PartialTemplateLiteralOccurrence_new Sample.hello Sample.helloLoc
                                          selection
     = throw "I can't find selected text in template elements"
  /\ PartialTemplateLiteralOccurrence_isValid Sample.hello Sample.helloLoc
                                              selection = false
  /\ createOccurrence Sample.hello Sample.helloLoc selection
     = ret (Occurrence_new Sample.hello Sample.helloLoc
              (GenericVariable (node Sample.hello) (parent Sample.hello))).
Proof.
  intros selection.
  pose proof (failed_probe_falls_through
                Sample.hello Sample.helloLoc selection
                [templateElementAt "Hello world" (Sample.loc 1 11 1 22)] []
                eq_refl eq_refl (or_introl eq_refl))
    as (_ & Hinvalid & Hgeneric).
  split; [reflexivity|]. split; [reflexivity|].
  split; [exact Hinvalid|exact Hgeneric].
Defined.

(** The same with a selection inside the segment: the partial variant is
    valid and extracts the selected text. *)
Lemma partial_template_literal_example :
  let selection :=
    Editor.mkSelection (Editor.mkPosition 0 11) (Editor.mkPosition 0 16) in
  PartialTemplateLiteralOccurrence_isValid Sample.hello Sample.helloLoc
                                           selection = true
  /\ (bind (createOccurrence Sample.hello Sample.helloLoc selection)
           PartialTemplateLiteralOccurrence_modification)
     = ret (mkModification "`${extracted} world`"
                           (Editor.Selection_fromAST Sample.helloLoc))
  /\ (bind (createOccurrence Sample.hello Sample.helloLoc selection)
           (fun o => toVariableDeclaration o ""))
     = ret (mkVariableDeclaration "extracted"
                                  (quote ++ "Hello" ++ quote)%string).
Proof. repeat split. Qed.

End OccurrenceSpec.

(** ** More on [IfElseToSwitch]: when and what it converts *)

Module IfElseToSwitchMore.
Import IfElseToSwitch Chain IfElseToSwitchFacts Shape.

Lemma caseBody_endsInReturnOrBreak statement :
  endsInReturnOrBreak (caseBody statement).
Proof.
  unfold caseBody, hasFinalReturn.
  induction (getStatements statement) as [|final front _] using rev_ind.
  - cbn. exists [], BreakStatement. split; [reflexivity|now left].
  - rewrite map_app. cbn [map]. rewrite last_last.
    destruct (isReturnStatement final) eqn:Hreturn.
    + exists front, final. split; [reflexivity|now right].
    + exists (front ++ [final]), BreakStatement.
      split; [reflexivity|now left].
Qed.

Section WithCapability.
Context {cap : Capability}.

(** What a switch returned by [convert] tells about the chain. *)
Lemma convert_switch_inv loc test consequent alternate d cs :
  let node := IfStatement loc test consequent alternate in
  convert node = SwitchStatement d cs ->
  firstDiscriminant (links node) = Some d
  /\ forallb (decomposesAgainst d) (links node) = true
  /\ cs = switchCases node.
Proof.
  intros node Hconvert.
  destruct (convert_cases node) as [Hsame|(d' & Hd & Hflag & Hswitch)].
  - rewrite Hsame in Hconvert. discriminate.
  - rewrite Hswitch in Hconvert. injection Hconvert as Hd' Hcs.
    subst d'. rewrite <- Hcs.
    rewrite convertNode_discriminant in Hd. cbn [discriminant init] in Hd.
    assert (Hall : forallb (decomposesAgainst d) (links node) = true).
    { apply forallb_forall. intros link Hin. unfold decomposesAgainst.
      destruct (toSwitch (fst link)) as [[d1 v]|] eqn:Hlink.
      - destruct (areEqual d d1) eqn:Hequal; [reflexivity|].
        rewrite (convertNode_disagreement node init d link d1 v
                   Hd Hin Hlink Hequal) in Hflag.
        discriminate.
      - rewrite (convertNode_not_decomposed node init link Hin Hlink)
          in Hflag.
        discriminate. }
    split; [exact Hd|]. split; [exact Hall|].
    change (cases (convertNode node init) = switchCases node).
    now rewrite (convertNode_agreement node init d eq_refl Hd Hall).
Qed.

(** X1.  [convert] returns a switch on [d] with the cases [cs] exactly
    when the first link that decomposes has the discriminant [d], every
    link decomposes to a discriminant [areEqual] accepts against [d],
    and [cs] are the cases of the links in order followed by the default
    of the trailing [else]; in every other case it returns the node it
    was given. *)
Theorem convert_switch_iff loc test consequent alternate :
  let node := IfStatement loc test consequent alternate in
  (forall d cs,
      convert node = SwitchStatement d cs
      <-> firstDiscriminant (links node) = Some d
          /\ forallb (decomposesAgainst d) (links node) = true
          /\ cs = switchCases node)
  /\ ((forall d, firstDiscriminant (links node) = Some d ->
                 forallb (decomposesAgainst d) (links node) = false) ->
      convert node = node).
Proof.
  intros node. split.
  - intros d cs. split.
    + apply convert_switch_inv.
    + intros (Hd & Hall & ->). unfold convert.
      now rewrite (convertNode_agreement node init d eq_refl Hd Hall).
  - intros Hnone.
    destruct (convert_cases node) as [Hsame|(d & _ & _ & Hswitch)];
      [exact Hsame|].
    destruct (convert_switch_inv loc test consequent alternate d _ Hswitch)
      as (Hd & Hall & _).
    pose proof (Hnone d Hd) as Hfalse. unfold node in Hfalse.
    congruence.
Qed.

(** X2.  In a switch [convert] returns there is one case per link of the
    chain, plus one when the chain has a trailing [else]; a case without
    a test ([default]) can only be the last one, and only when the chain
    has a trailing [else]; and the statement list of every case is not
    empty and ends in a return or in a break, so that no case falls
    through into the next. *)
Theorem converted_switch_shape loc test consequent alternate d cs :
  let node := IfStatement loc test consequent alternate in
  convert node = SwitchStatement d cs ->
  length cs
  = length (links node)
    + match trailingElse node with Some _ => 1 | None => 0 end
  /\ (forall i c,
         nth_error cs i = Some c -> caseTest c = None ->
         S i = length cs /\ trailingElse node <> None)
  /\ Forall (fun c => endsInReturnOrBreak (caseConsequent c)) cs.
Proof.
  intros node Hconvert.
  destruct (convert_switch_inv loc test consequent alternate d cs Hconvert)
    as (_ & Hall & ->).
  unfold switchCases. fold node in Hall |- *.
  assert (Hlinks : Forall (fun c => caseTest c <> None)
                          (map caseOfLink (links node))).
  { apply Forall_map, Forall_forall. intros link Hin.
    rewrite forallb_forall in Hall. specialize (Hall link Hin).
    unfold decomposesAgainst in Hall. unfold caseOfLink. cbn.
    now destruct (toSwitch (fst link)) as [[d1 v]|]. }
  split; [|split].
  - rewrite length_app, length_map.
    destruct (trailingElse node); reflexivity.
  - intros i c Hi Hdefault.
    destruct (Nat.lt_ge_cases i (length (map caseOfLink (links node))))
      as [Hlt|Hge].
    + rewrite nth_error_app1 in Hi by exact Hlt.
      rewrite Forall_forall in Hlinks.
      now destruct (Hlinks c (nth_error_In _ _ Hi)).
    + rewrite nth_error_app2 in Hi by exact Hge.
      rewrite length_app.
      remember (length (map caseOfLink (links node))) as n eqn:Hn.
      destruct (trailingElse node) as [e|].
      * destruct (i - n) as [|k] eqn:Hk; [|destruct k; discriminate].
        split; [cbn [length]; lia|discriminate].
      * destruct (i - n); discriminate.
  - apply Forall_app. split.
    + apply Forall_map, Forall_forall. intros link _.
      apply caseBody_endsInReturnOrBreak.
    + destruct (trailingElse node); constructor; [|constructor].
      apply caseBody_endsInReturnOrBreak.
Qed.

End WithCapability.

#[local] Existing Instance Sample.capability.

(** The canonical example: three cases, the default last. *)
Lemma converted_switch_shape_witness :
  convert Sample.canonical
  = SwitchStatement (Identifier "x") (switchCases Sample.canonical)
  /\ length (switchCases Sample.canonical) = 3
  /\ Forall (fun c => endsInReturnOrBreak (caseConsequent c))
            (switchCases Sample.canonical).
Proof.
  pose proof (converted_switch_shape
                (Sample.loc 1 0 7 1)
                (Sample.equals "x" (StringLiteral "a"))
                (BlockStatement [Sample.call "f"])
                (Some (IfStatement (Sample.loc 3 7 7 1)
                         (Sample.equals "x" (StringLiteral "b"))
                         (BlockStatement [Sample.call "g"])
                         (Some (BlockStatement [Sample.call "h"]))))
                (Identifier "x") (switchCases Sample.canonical) eq_refl)
    as (Hlength & _ & Hends).
  split; [reflexivity|]. split; [exact Hlength|exact Hends].
Defined.

End IfElseToSwitchMore.

(** ** More on the refactoring: what one run changes *)

Module ConvertIfElseToSwitchMore.
Import IfElseToSwitch Chain IfElseToSwitchFacts Transformation
       ConvertIfElseToSwitch TraversalFacts Reach.

(** Induction on statements, with the hypothesis on every statement of a
    block and of a case. *)
Lemma Statement_nested_ind (P : Statement -> Prop) :
  (forall loc test consequent,
      P consequent -> P (IfStatement loc test consequent None)) ->
  (forall loc test consequent alt,
      P consequent -> P alt ->
      P (IfStatement loc test consequent (Some alt))) ->
  (forall d cs,
      Forall (fun c => Forall P (caseConsequent c)) cs ->
      P (SwitchStatement d cs)) ->
  (forall body, Forall P body -> P (BlockStatement body)) ->
  (forall argument, P (ReturnStatement argument)) ->
  P BreakStatement ->
  (forall expression, P (ExpressionStatement expression)) ->
  forall s, P s.
Proof.
  intros Hif Hifelse Hswitch Hblock Hreturn Hbreak Hexpression.
  fix IH 1.
  intros [loc test consequent [alt|]|d cs|body|argument| |expression].
  - apply Hifelse; apply IH.
  - apply Hif; apply IH.
  - apply Hswitch.
    induction cs as [|[t body] cs IHcs]; constructor; [|exact IHcs].
    cbn. induction body as [|a body IHbody]; constructor;
      [apply IH|exact IHbody].
  - apply Hblock.
    induction body as [|a body IHbody]; constructor;
      [apply IH|exact IHbody].
  - apply Hreturn.
  - apply Hbreak.
  - apply Hexpression.
Qed.

Section WithCapability.
Context {cap : Capability}.
Variable selection : Editor.Selection.

Lemma existsb_false_impl {A} (f g : A -> bool) (l : list A) :
  Forall (fun x => f x = false -> g x = false) l ->
  existsb f l = false -> existsb g l = false.
Proof.
  induction 1 as [|x l Hx _ IH]; cbn; [reflexivity|].
  rewrite !orb_false_iff. intros [Hfx Hl]. split; [now apply Hx|now apply IH].
Qed.

(** A match is a conditional statement the selection is inside of. *)
Lemma noMatch_of_not_selected s :
  selectedAnywhere selection s = false ->
  matchesSelection selection s = false.
Proof.
  induction s as [loc test consequent IHc|loc test consequent alt IHc IHa
                 |d cs IHcs|body IHbody|argument| |expression]
    using Statement_nested_ind; cbn [selectedAnywhere matchesSelection];
    try reflexivity.
  - rewrite !orb_false_iff. intros [[Hin Hc] _].
    unfold childMatches. rewrite Hin. cbn. now rewrite (IHc Hc).
  - rewrite !orb_false_iff. intros [[Hin Hc] Ha].
    unfold childMatches. rewrite Hin. cbn. now rewrite (IHc Hc), (IHa Ha).
  - apply existsb_false_impl.
    eapply Forall_impl; [|exact IHcs].
    intros c Hc. now apply existsb_false_impl.
  - now apply existsb_false_impl.
Qed.

(** X3.  When the selection is inside no conditional statement of the
    program (in particular when the program has none), a run changes
    nothing: the text [updateCode] returns is the printed input,
    [hasIfElseToConvert] is false, and [convertIfElseToSwitch] shows the
    error and writes nothing. *)
Theorem nothing_selected_nothing_changes code :
  Forall (fun s => selectedAnywhere selection s = false) (parse code) ->
  updateCode selection code
  = {| Transformation.code := print (parse code); hasCodeChanged := false |}
  /\ hasIfElseToConvert selection code = false
  /\ convertIfElseToSwitch selection code
     = showError_DidNotFoundIfElseToConvert.
Proof.
  intros Hnone.
  assert (Hno : Forall (noMatch selection) (parse code)).
  { eapply Forall_impl; [|exact Hnone].
    intros s Hs. now apply noMatch_of_not_selected. }
  assert (Hupdate : updateCode selection code
                    = {| Transformation.code := print (parse code);
                         hasCodeChanged := false |}).
  { unfold updateCode, transform.
    rewrite (traverse_noMatch selection _ Hno).
    now rewrite String.eqb_refl. }
  split; [exact Hupdate|].
  unfold convertIfElseToSwitch, hasIfElseToConvert.
  now rewrite Hupdate.
Qed.

(** X4.  A chain that stands among the statements of the program, with
    the selection inside it, no match below it, and every link
    decomposing against the discriminant [d] of the first: one run puts
    the switch on [d] in its place, leaves the statements of its bodies
    as they are inside the switch, and leaves the statements around it,
    none of which has a match, untouched; the text returned is the
    printed result. *)
Theorem selected_chain_is_replaced
        code before after loc test consequent alternate d :
  let node := IfStatement loc test consequent alternate in
  parse code = before ++ node :: after ->
  isInsidePath selection node = true ->
  hasChildWhichMatchesSelection selection node = false ->
  firstDiscriminant (links node) = Some d ->
  forallb (decomposesAgainst d) (links node) = true ->
  Forall (noMatch selection) before ->
  Forall (noMatch selection) after ->
  traverse (IfStatementVisitor selection) (parse code)
  = before ++ SwitchStatement d (switchCases node) :: after
  /\ Transformation.code (updateCode selection code)
     = print (before ++ SwitchStatement d (switchCases node) :: after).
Proof.
  intros node Hparse Hin Hno Hd Hall Hbefore Hafter.
  assert (Hconvert : convert node = SwitchStatement d (switchCases node)).
  { unfold convert.
    now rewrite (convertNode_agreement node init d eq_refl Hd Hall). }
  assert (Htraverse : traverse (IfStatementVisitor selection) (parse code)
                      = before ++ SwitchStatement d (switchCases node)
                               :: after).
  { rewrite Hparse. unfold traverse. rewrite map_app. cbn [map].
    f_equal; [|f_equal].
    - apply map_fixed. eapply Forall_impl; [|exact Hbefore].
      intros s Hs. now apply traverseStatement_noMatch.
    - rewrite <- Hconvert.
      destruct (depth node) as [|fuel] eqn:Hdepth;
        [pose proof (depth_positive node); lia|].
      now apply traverseStatement_innermost.
    - apply map_fixed. eapply Forall_impl; [|exact Hafter].
      intros s Hs. now apply traverseStatement_noMatch. }
  split; [exact Htraverse|].
  unfold updateCode, transform. cbn [Transformation.code].
  now rewrite Htraverse.
Qed.

End WithCapability.

#[local] Existing Instance Sample.capability.

(** [if (x > 1) g(); else if (x === 'b') h();] with the cursor on line
    5: no conditional statement contains it. *)
Lemma nothing_selected_nothing_changes_witness :
  let selection := Editor.cursorAt 5 0 in
  Forall (fun s => selectedAnywhere selection s = false)
         (parse Sample.elseIfTailCode)
  /\ hasIfElseToConvert selection Sample.elseIfTailCode = false
  /\ convertIfElseToSwitch selection Sample.elseIfTailCode
     = showError_DidNotFoundIfElseToConvert.
Proof.
  intros selection.
  assert (Hnone : Forall (fun s => selectedAnywhere selection s = false)
                         (parse Sample.elseIfTailCode))
    by (repeat constructor).
  split; [exact Hnone|].
  exact (proj2 (nothing_selected_nothing_changes
                  selection Sample.elseIfTailCode Hnone)).
Defined.

(** The canonical example with the cursor at its start. *)
Lemma selected_chain_is_replaced_witness :
  let selection := Editor.cursorAt 0 0 in
  parse Sample.canonicalCode = [] ++ Sample.canonical :: []
  /\ isInsidePath selection Sample.canonical = true
  /\ hasChildWhichMatchesSelection selection Sample.canonical = false
  /\ Transformation.code (updateCode selection Sample.canonicalCode)
     = print [SwitchStatement (Identifier "x")
                [ switchCase (Some (StringLiteral "a"))
                             [Sample.call "f"; BreakStatement];
                  switchCase (Some (StringLiteral "b"))
                             [Sample.call "g"; BreakStatement];
                  switchCase None [Sample.call "h"; BreakStatement] ]].
Proof.
  intros selection.
  split; [reflexivity|]. split; [reflexivity|]. split; [reflexivity|].
  exact (proj2 (selected_chain_is_replaced
                  selection Sample.canonicalCode [] []
                  (Sample.loc 1 0 7 1)
                  (Sample.equals "x" (StringLiteral "a"))
                  (BlockStatement [Sample.call "f"])
                  (Some (IfStatement (Sample.loc 3 7 7 1)
                           (Sample.equals "x" (StringLiteral "b"))
                           (BlockStatement [Sample.call "g"])
                           (Some (BlockStatement [Sample.call "h"]))))
                  (Identifier "x")
                  eq_refl eq_refl eq_refl eq_refl eq_refl
                  (Forall_nil _) (Forall_nil _))).
Defined.

End ConvertIfElseToSwitchMore.

(** ** More on occurrences: what [createOccurrence] hands out *)

Module OccurrenceMore.
Import Occurrence OccurrenceSpec.

Section WithDependencies.
Context {deps : Dependencies}.

(** What the constructor of the partial variant returns when it returns. *)
Lemma PartialTemplateLiteralOccurrence_new_inv p loc selection o :
  PartialTemplateLiteralOccurrence_new p loc selection = ret o ->
  class o = PartialTemplateLiteralOccurrence selection
  /\ path o = p /\ Occurrence.loc o = loc.
Proof.
  unfold PartialTemplateLiteralOccurrence_new.
  destruct (parts _) as [message|pieces]; cbn; [discriminate|].
  intros [= <-]. repeat split.
Qed.

(** The class of an occurrence [createOccurrence] returns, when the
    string rule does not rewrite the path. *)
Lemma createOccurrenceWithin_pass fuel p loc selection o :
  isStringLiteral p
  && (negb (Editor.isEmpty selection) && isStrictlyInsidePath selection p)
  = false ->
  createOccurrenceWithin fuel p loc selection = ret o ->
  path o = p /\ Occurrence.loc o = loc
  /\ (class o = ShorthandOccurrence
      \/ class o = MemberExpressionOccurrence Destructure
      \/ class o = OccurrenceClass
      \/ (class o = PartialTemplateLiteralOccurrence selection
          /\ Editor.isEmpty selection = false
          /\ isTemplateLiteral p = true
          /\ PartialTemplateLiteralOccurrence_isValid p loc selection = true
          /\ PartialTemplateLiteralOccurrence_new p loc selection = ret o)).
Proof.
  intros Hstring.
  assert (Hdone : forall o',
             ret o' = ret o ->
             path o' = p -> Occurrence.loc o' = loc ->
             (class o' = ShorthandOccurrence
              \/ class o' = MemberExpressionOccurrence Destructure
              \/ class o' = OccurrenceClass) ->
             path o = p /\ Occurrence.loc o = loc
             /\ (class o = ShorthandOccurrence
                 \/ class o = MemberExpressionOccurrence Destructure
                 \/ class o = OccurrenceClass
                 \/ (class o = PartialTemplateLiteralOccurrence selection
                     /\ Editor.isEmpty selection = false
                     /\ isTemplateLiteral p = true
                     /\ PartialTemplateLiteralOccurrence_isValid
                          p loc selection = true
                     /\ PartialTemplateLiteralOccurrence_new p loc selection
                        = ret o))).
  { intros o' [= ->] Hp Hl Hc. split; [exact Hp|]. split; [exact Hl|].
    destruct Hc as [Hc|[Hc|Hc]]; auto. }
  destruct fuel; cbn [createOccurrenceWithin];
    (destruct (canBeShorthand p);
     [destruct (isValid (ShorthandVariable (node p) (parent p)));
      [intros H; apply (Hdone _ H); auto|]|]);
    (destruct (isMemberExpression p);
     [intros H; apply (Hdone _ H); auto|]);
    (destruct (isStringLiteral p);
     [cbn [andb] in Hstring; rewrite Hstring;
      intros H; apply (Hdone _ H); auto|]);
    (destruct (isTemplateLiteral p); cbn [andb];
     [|intros H; apply (Hdone _ H); auto]);
    (destruct (Editor.isEmpty selection); cbn [negb andb];
     [intros H; apply (Hdone _ H); auto|]);
    (destruct (PartialTemplateLiteralOccurrence_isValid p loc selection)
       eqn:Hvalid;
     [|intros H; apply (Hdone _ H); auto]);
    intros Hnew;
    destruct (PartialTemplateLiteralOccurrence_new_inv _ _ _ _ Hnew)
      as (Hclass & Hpath & Hloc);
    (split; [exact Hpath|]); (split; [exact Hloc|]);
    right; right; right; repeat split; assumption.
Qed.

(** One unfolding of [createOccurrence]. *)
Lemma createOccurrence_unfold p loc selection :
  createOccurrence p loc selection
  = match (if canBeShorthand p
           then if isValid (ShorthandVariable (node p) (parent p))
                then Some (mkOccurrence ShorthandOccurrence p loc
                             (ShorthandVariable (node p) (parent p)))
                else None
           else None) with
    | Some occurrence => ret occurrence
    | None =>
        if isMemberExpression p then
          ret (MemberExpressionOccurrence_new p loc
                 (MemberExpressionVariable (node p) (parent p)))
        else if isStringLiteral p then
          if negb (Editor.isEmpty selection)
             && isStrictlyInsidePath selection p
          then
            let '(templateLoc, qs, es) :=
              convertStringToTemplateLiteral (node p) loc in
            createOccurrenceWithin 0
              (replaceWith (ExpressionNode (TemplateLiteral qs es))
                           templateLoc p)
              loc selection
          else
            ret (Occurrence_new p loc
                   (StringLiteralVariable (node p) (parent p)))
        else if isTemplateLiteral p
                && negb (Editor.isEmpty selection)
                && PartialTemplateLiteralOccurrence_isValid p loc selection
        then PartialTemplateLiteralOccurrence_new p loc selection
        else
          ret (Occurrence_new p loc (GenericVariable (node p) (parent p)))
    end.
Proof. reflexivity. Qed.

(** The same for every path: the path of the occurrence is the one given,
    or the one the string rule has rewritten. *)
Lemma createOccurrence_inv p loc selection o :
  createOccurrence p loc selection = ret o ->
  Occurrence.loc o = loc
  /\ parent (path o) = parent p
  /\ (path o = p
      \/ (isStringLiteral p = true /\ Editor.isEmpty selection = false
          /\ isStrictlyInsidePath selection p = true
          /\ isTemplateLiteral (path o) = true))
  /\ (class o = ShorthandOccurrence
      \/ class o = MemberExpressionOccurrence Destructure
      \/ class o = OccurrenceClass
      \/ (class o = PartialTemplateLiteralOccurrence selection
          /\ Editor.isEmpty selection = false
          /\ isTemplateLiteral (path o) = true
          /\ PartialTemplateLiteralOccurrence_isValid (path o) loc selection
             = true
          /\ PartialTemplateLiteralOccurrence_new (path o) loc selection
             = ret o)).
Proof.
  destruct (isStringLiteral p
            && (negb (Editor.isEmpty selection)
                && isStrictlyInsidePath selection p)) eqn:Hstring.
  - apply andb_true_iff in Hstring as [Hliteral Hrewrite].
    apply andb_true_iff in Hrewrite as [Hempty Hstrict].
    apply negb_true_iff in Hempty.
    rewrite createOccurrence_unfold.
    destruct (canBeShorthand p);
      [destruct (isValid (ShorthandVariable (node p) (parent p)))|].
    1: { intros [= <-]. cbn. repeat split; auto. }
    all: (destruct (isMemberExpression p);
          [intros [= <-]; cbn; repeat split; auto|]);
      rewrite Hliteral, Hempty, Hstrict; cbn [negb andb];
      destruct (convertStringToTemplateLiteral (node p) loc)
        as [[templateLoc qs] es];
      intros Hinner;
      apply createOccurrenceWithin_pass in Hinner; [|reflexivity];
      destruct Hinner as (Hpath & Hloc & Hclass);
      (split; [exact Hloc|]); rewrite Hpath;
      (split; [reflexivity|]);
      (split; [right; split; [reflexivity|]; split; [reflexivity|];
               split; [reflexivity|reflexivity]|]);
      rewrite ?Hempty, ?Hstrict in Hclass; exact Hclass.
  - intros H. apply createOccurrenceWithin_pass in H; [|exact Hstring].
    destruct H as (Hpath & Hloc & Hclass).
    split; [exact Hloc|]. rewrite Hpath.
    split; [reflexivity|]. split; [now left|exact Hclass].
Qed.

(** What a successful validity check has computed. *)
Lemma isValid_true_inv p loc selection o :
  PartialTemplateLiteralOccurrence_isValid p loc selection = true ->
  PartialTemplateLiteralOccurrence_new p loc selection = ret o ->
  Editor.isMultiLines (Editor.Selection_fromAST loc) = false
  /\ (exists declaration,
         PartialTemplateLiteralOccurrence_toVariableDeclaration o
         = ret declaration)
  /\ (exists modification,
         PartialTemplateLiteralOccurrence_modification o = ret modification).
Proof.
  unfold PartialTemplateLiteralOccurrence_isValid.
  destruct (Editor.isMultiLines (Editor.Selection_fromAST loc));
    [intros H; discriminate H|].
  intros Hvalid Hnew. rewrite Hnew in Hvalid. unfold bind, ret in Hvalid.
  destruct (PartialTemplateLiteralOccurrence_toVariableDeclaration o)
    as [m1|declaration]; [discriminate|].
  destruct (PartialTemplateLiteralOccurrence_modification o)
    as [m2|modification]; [discriminate|].
  split; [reflexivity|]. split; eexists; reflexivity.
Qed.

(** X5.  [createOccurrence] returns an occurrence on every input, and
    the occurrence it returns is usable: [toVariableDeclaration] returns
    a declaration, and for the partial-template-literal variant
    [modification] returns a modification; neither throws, because the
    validity check has run the same computations. *)
Theorem created_occurrence_does_not_throw p loc selection code :
  exists o,
    createOccurrence p loc selection = ret o
    /\ (exists declaration, toVariableDeclaration o code = ret declaration)
    /\ (forall s,
           class o = PartialTemplateLiteralOccurrence s ->
           exists modification,
             PartialTemplateLiteralOccurrence_modification o
             = ret modification).
Proof.
  destruct (createOccurrence_returns p loc selection) as [o Ho].
  exists o. split; [exact Ho|].
  destruct (createOccurrence_inv p loc selection o Ho)
    as (_ & _ & _ & Hclass).
  unfold toVariableDeclaration.
  destruct Hclass as [Hc|[Hc|[Hc|(Hc & _ & _ & Hvalid & Hnew)]]];
    rewrite Hc.
  - split; [eexists; reflexivity|discriminate].
  - split; [eexists; reflexivity|discriminate].
  - split; [eexists; reflexivity|discriminate].
  - destruct (isValid_true_inv _ _ _ _ Hvalid Hnew)
      as (_ & Hdeclaration & Hmodification).
    split; [exact Hdeclaration|]. intros _ _. exact Hmodification.
Qed.

(** X6.  An occurrence of the partial-template-literal variant comes out
    of [createOccurrence] only for a range [loc] on one line and a
    selection that is not empty, on a path that is (or has been
    rewritten to) a template literal, one of whose segments passes
    [isInsideNode] for the selection and has a source range; the
    occurrence keeps [loc] and remembers the selection. *)
Theorem partial_variant_only_if p loc selection o s :
  createOccurrence p loc selection = ret o ->
  class o = PartialTemplateLiteralOccurrence s ->
  s = selection
  /\ Occurrence.loc o = loc
  /\ Editor.isMultiLines (Editor.Selection_fromAST loc) = false
  /\ Editor.isEmpty selection = false
  /\ isTemplateLiteral (path o) = true
  /\ exists index quasi quasiLoc,
       nth_error (quasis (node (path o))) index = Some quasi
       /\ isInsideNode selection quasi = true
       /\ elementLoc quasi = Some quasiLoc.
Proof.
  intros Ho Hs.
  destruct (createOccurrence_inv p loc selection o Ho)
    as (Hloc & _ & _ & Hclass).
  destruct Hclass as [Hc|[Hc|[Hc|(Hc & Hempty & Htemplate & Hvalid & Hnew)]]];
    try congruence.
  rewrite Hc in Hs. injection Hs as <-.
  destruct (isValid_true_inv _ _ _ _ Hvalid Hnew)
    as (Hline & [declaration Hdeclaration] & _).
  split; [reflexivity|]. split; [exact Hloc|]. split; [exact Hline|].
  split; [exact Hempty|]. split; [exact Htemplate|].
  unfold PartialTemplateLiteralOccurrence_toVariableDeclaration, parts,
    selectedQuasi in Hdeclaration.
  unfold userSelection in Hdeclaration. rewrite Hc in Hdeclaration.
  destruct (findIndex (isInsideNode selection)
                      (quasis (node (path o)))) as [index|] eqn:Hindex;
    [|discriminate].
  destruct (findIndex_Some _ _ _ Hindex) as (quasi & Hnth & Hinside).
  rewrite Hnth in Hdeclaration.
  destruct (elementLoc quasi) as [quasiLoc|] eqn:Hquasi; [|discriminate].
  now exists index, quasi, quasiLoc.
Qed.

(** X7.  With an empty selection (a cursor), [createOccurrence] never
    rewrites a string literal to a template literal and never selects
    the partial-template-literal variant: the occurrence stands on the
    path it was given and is a shorthand, a member-expression (with the
    strategy "destructure") or a plain occurrence. *)
Theorem empty_selection_keeps_the_path p loc selection o :
  Editor.isEmpty selection = true ->
  createOccurrence p loc selection = ret o ->
  path o = p
  /\ Occurrence.loc o = loc
  /\ (class o = ShorthandOccurrence
      \/ class o = MemberExpressionOccurrence Destructure
      \/ class o = OccurrenceClass).
Proof.
  intros Hempty Ho.
  destruct (createOccurrence_inv p loc selection o Ho)
    as (Hloc & _ & Hpath & Hclass).
  split; [|split; [exact Hloc|]].
  - destruct Hpath as [Hpath|(_ & Hnot & _)]; [exact Hpath|congruence].
  - destruct Hclass as [Hc|[Hc|[Hc|(_ & Hnot & _)]]]; auto. congruence.
Qed.

(** A list with the part from [index] to [k] replaced by [new]. *)
Lemma splice_facts {A} (l new : list A) index k :
  index <= List.length l ->
  let l' := firstn index l ++ new ++ skipn k l in
  firstn index l' = firstn index l
  /\ (forall j, j < List.length new -> nth_error l' (index + j) = nth_error new j)
  /\ skipn (index + List.length new) l' = skipn k l
  /\ List.length l' = index + List.length new + (List.length l - k).
Proof.
  intros Hindex l'. unfold l'.
  assert (Hlen : List.length (firstn index l) = index)
    by (rewrite length_firstn; lia).
  split; [|split; [|split]].
  - rewrite firstn_app, Hlen, Nat.sub_diag. cbn [firstn].
    rewrite app_nil_r. apply firstn_all2. lia.
  - intros j Hj.
    rewrite nth_error_app2 by lia.
    rewrite Hlen. replace (index + j - index) with j by lia.
    now rewrite nth_error_app1.
  - rewrite skipn_app, Hlen.
    rewrite skipn_all2 by lia. cbn [app].
    replace (index + List.length new - index) with (List.length new) by lia.
    rewrite skipn_app, skipn_all, Nat.sub_diag. reflexivity.
  - rewrite !length_app, Hlen, length_skipn. lia.
Qed.

(** X8.  On a template literal with one segment more than expressions,
    when [selectedQuasi] finds the segment at [index], [modification]
    prints a template literal that again has one segment more than
    expressions: the segments and expressions before [index] are kept,
    the segment at [index] is replaced by the part before and the part
    after the selection, the identifier of the variable is inserted as
    the expression at [index], and everything behind is kept in order;
    the modification covers the range of the occurrence. *)
Theorem partial_modification_splits_one_segment
        this quasi quasiLoc index :
  let qs := quasis (node (path this)) in
  let es := expressions (node (path this)) in
  selectedQuasi this = ret (quasi, quasiLoc, index) ->
  List.length qs = S (List.length es) ->
  exists pieces qs' es',
    parts this = ret pieces
    /\ PartialTemplateLiteralOccurrence_modification this
       = ret (mkModification (print (TemplateLiteral qs' es'))
                             (selection this))
    /\ List.length qs' = S (List.length es')
    /\ List.length es' = S (List.length es)
    /\ firstn index qs' = firstn index qs
    /\ nth_error qs' index = Some (templateElement (before pieces))
    /\ nth_error qs' (S index) = Some (templateElement (after pieces))
    /\ skipn (S (S index)) qs' = skipn (S index) qs
    /\ firstn index es' = firstn index es
    /\ nth_error es' index = Some (Identifier (name (variable this)))
    /\ skipn (S index) es' = skipn index es.
Proof.
  intros qs es Hquasi Hshape.
  assert (Hindex : index < List.length qs).
  { unfold selectedQuasi in Hquasi. fold qs in Hquasi.
    destruct (findIndex (isInsideNode (userSelection this)) qs) as [i|];
      [|discriminate].
    destruct (nth_error qs i) as [result|] eqn:Hnth; [|discriminate].
    destruct (elementLoc result); [|discriminate].
    injection Hquasi as _ _ <-.
    apply nth_error_Some. congruence. }
  set (pieces :=
         mkParts (raw quasi) (userSelection this)
                 (Editor.start (Editor.Selection_fromAST quasiLoc))).
  set (newQuasis :=
         [templateElement (before pieces); templateElement (after pieces)]).
  set (newExpression := [Identifier (name (variable this))]).
  exists pieces,
    (firstn index qs ++ newQuasis ++ skipn (index + 1) qs),
    (firstn index es ++ newExpression ++ skipn index es).
  assert (Hparts : parts this = ret pieces)
    by (unfold parts; rewrite Hquasi; reflexivity).
  destruct (splice_facts qs newQuasis index (index + 1) ltac:(lia))
    as (Hq1 & Hq2 & Hq3 & Hq4).
  destruct (splice_facts es newExpression index index ltac:(lia))
    as (He1 & He2 & He3 & He4).
  cbn [List.length newQuasis newExpression] in Hq3, Hq4, He3, He4.
  split; [exact Hparts|]. split.
  { unfold PartialTemplateLiteralOccurrence_modification.
    rewrite Hparts, Hquasi. reflexivity. }
  pose proof (Hq2 0 ltac:(cbn; lia)) as Hq20.
  pose proof (Hq2 1 ltac:(cbn; lia)) as Hq21.
  pose proof (He2 0 ltac:(cbn; lia)) as He20.
  rewrite Nat.add_0_r in Hq20, He20.
  split; [lia|]. split; [lia|]. split; [exact Hq1|].
  split; [exact Hq20|].
  split; [replace (S index) with (index + 1) by lia; exact Hq21|].
  split.
  { replace (S (S index)) with (index + 2) by lia.
    replace (S index) with (index + 1) by lia. exact Hq3. }
  split; [exact He1|]. split; [exact He20|].
  replace (S index) with (index + 1) by lia. exact He3.
Qed.

(** X9.  The declaration a fresh member-expression occurrence gives after
    the prompt depends on the answer alone: it is the generic one (the
    name, the extracted code) when the access is computed or the answer
    is "preserve", and the destructuring one (the name in braces, the
    printed object) otherwise, that is on "destructure" and on a
    dismissed prompt alike.  The prompt offers "destructure" then
    "preserve", and changes neither the path, the range nor the variable
    of the occurrence. *)
Theorem declaration_after_prompt editor p loc variable code :
  let this := MemberExpressionOccurrence_new p loc variable in
  let asked := askModificationDetails editor this in
  let preserve :=
    match askUser editor (choices this) with
    | Some choice =>
        match value choice with Preserve => true | Destructure => false end
    | None => false
    end in
  map value (choices this) = [Destructure; Preserve]
  /\ path asked = p /\ Occurrence.loc asked = loc
  /\ Occurrence.variable asked = variable
  /\ toVariableDeclaration asked code
     = ret (if computed this || preserve
            then Occurrence_toVariableDeclaration this code
            else mkVariableDeclaration
                   ("{ " ++ name variable ++ " }")%string
                   (parentObject this)).
Proof.
  intros this asked preserve.
  unfold asked, preserve, askModificationDetails,
    MemberExpressionOccurrence_askModificationDetails.
  cbn [class this MemberExpressionOccurrence_new].
  split; [reflexivity|].
  destruct (askUser editor (choices this)) as [choice|].
  - unfold setDestructureStrategy.
    cbn [class this MemberExpressionOccurrence_new].
    split; [reflexivity|]. split; [reflexivity|]. split; [reflexivity|].
    unfold toVariableDeclaration,
      MemberExpressionOccurrence_toVariableDeclaration,
      Occurrence_toVariableDeclaration, computed, parentObject, this,
      MemberExpressionOccurrence_new.
    cbn [class destructureStrategy path Occurrence.variable].
    destruct (node p) as [[? | ? | ? | ? ? ? | ? ? [|] | ? ? | ? ? | ?]| |];
      cbn [orb]; destruct (value choice); reflexivity.
  - split; [reflexivity|]. split; [reflexivity|]. split; [reflexivity|].
    unfold toVariableDeclaration,
      MemberExpressionOccurrence_toVariableDeclaration,
      Occurrence_toVariableDeclaration, computed, parentObject, this,
      MemberExpressionOccurrence_new.
    cbn [class destructureStrategy path Occurrence.variable].
    destruct (node p) as [[? | ? | ? | ? ? ? | ? ? [|] | ? ? | ? ? | ?]| |];
      reflexivity.
Qed.

End WithDependencies.

#[local] Existing Instance Sample.dependencies.

(** [`Hello world`] with [Hello] selected: the segment becomes the empty
    part before and [ world] after, around the new identifier. *)
Lemma partial_modification_splits_one_segment_witness :
  let selection :=
    Editor.mkSelection (Editor.mkPosition 0 11) (Editor.mkPosition 0 16) in
  let this :=
    mkOccurrence (PartialTemplateLiteralOccurrence selection)
                 Sample.hello Sample.helloLoc
                 (Sample.variableNamed "extracted") in
  selectedQuasi this
  = ret (templateElementAt "Hello world" (Sample.loc 1 11 1 22),
         mkSourceLocation (mkAstPosition 1 11) (mkAstPosition 1 22), 0)
  /\ List.length (quasis (node (path this)))
     = S (List.length (expressions (node (path this))))
  /\ exists pieces qs' es',
       PartialTemplateLiteralOccurrence_modification this
       = ret (mkModification (print (TemplateLiteral qs' es'))
                             (Occurrence.selection this))
       /\ before pieces = ""%string
       /\ after pieces = " world"%string
       /\ List.length qs' = 2 /\ List.length es' = 1.
Proof.
  intros selection this.
  split; [reflexivity|]. split; [reflexivity|].
  destruct (partial_modification_splits_one_segment
              (deps := Sample.dependencies) this
              (templateElementAt "Hello world" (Sample.loc 1 11 1 22))
              (mkSourceLocation (mkAstPosition 1 11) (mkAstPosition 1 22))
              0 eq_refl eq_refl)
    as (pieces & qs' & es' & Hparts & Hmodification & Hqs & Hes & _).
  exists pieces, qs', es'.
  split; [exact Hmodification|].
  assert (Hpieces : pieces
                    = mkParts "Hello world" selection
                              (Editor.mkPosition 0 11))
    by (cbv in Hparts; now injection Hparts as <-).
  rewrite Hpieces.
  split; [reflexivity|]. split; [reflexivity|].
  split; [rewrite Hqs, Hes; reflexivity|exact Hes].
Defined.

(** [`Hello world`] with [Hello] selected. *)
Lemma partial_variant_only_if_witness :
  let selection :=
    Editor.mkSelection (Editor.mkPosition 0 11) (Editor.mkPosition 0 16) in
  exists o,
    createOccurrence Sample.hello Sample.helloLoc selection = ret o
    /\ class o = PartialTemplateLiteralOccurrence selection
    /\ Editor.isMultiLines (Editor.Selection_fromAST Sample.helloLoc) = false
    /\ Editor.isEmpty selection = false.
Proof.
  intros selection.
  eexists. split; [reflexivity|]. split; [reflexivity|].
  pose proof (partial_variant_only_if
                Sample.hello Sample.helloLoc selection _ selection
                eq_refl eq_refl) as (_ & _ & Hline & Hempty & _).
  split; [exact Hline|exact Hempty].
Defined.

(** The string literal ['Hello world'] under a cursor. *)
Lemma empty_selection_keeps_the_path_witness :
  let p :=
    mkNodePath (ExpressionNode (StringLiteral "Hello world"))
               (Some Sample.helloLoc)
               (StatementNode (BlockStatement [])) in
  let selection := Editor.cursorAt 0 12 in
  Editor.isEmpty selection = true
  /\ exists o,
       createOccurrence p Sample.helloLoc selection = ret o
       /\ path o = p /\ class o = OccurrenceClass.
Proof.
  intros p selection. split; [reflexivity|].
  eexists. split; [reflexivity|].
  pose proof (empty_selection_keeps_the_path
                p Sample.helloLoc selection _ eq_refl eq_refl)
    as (Hpath & _ & _).
  split; [exact Hpath|reflexivity].
Defined.

End OccurrenceMore.

(** ** The editor of Vue documents: what it hands to the refactorings *)

Module VueVSCodeEditorFacts.
Import VueVSCodeEditor.

(** *** Strings *)

Lemma length_append (a b : string) :
  String.length (a ++ b) = String.length a + String.length b.
Proof. induction a as [|c a IH]; cbn; [reflexivity|now rewrite IH]. Qed.

Lemma append_assoc (a b c : string) :
  ((a ++ b) ++ c = a ++ b ++ c)%string.
Proof. induction a as [|x a IH]; cbn; [reflexivity|now rewrite IH]. Qed.

Lemma substring_all (a : string) :
  String.substring 0 (String.length a) a = a.
Proof. induction a as [|c a IH]; cbn; [reflexivity|now rewrite IH]. Qed.

Lemma substring_prefix (a b : string) :
  String.substring 0 (String.length a) (a ++ b) = a.
Proof.
  induction a as [|c a IH]; cbn; [now destruct b|now rewrite IH].
Qed.

Lemma substring_skip (a b : string) n m :
  String.substring (String.length a + n) m (a ++ b) = String.substring n m b.
Proof. induction a as [|c a IH]; cbn; [reflexivity|exact IH]. Qed.

Lemma substring_middle (a b c : string) :
  String.substring (String.length a) (String.length b) (a ++ b ++ c) = b.
Proof.
  rewrite <- (Nat.add_0_r (String.length a)), substring_skip.
  apply substring_prefix.
Qed.


(** [split("\n")] yields one piece more than there are line feeds. *)
Lemma split_length (s : string) :
  List.length (JavaScript.split s) = S (JavaScript.lineFeeds s).
Proof.
  induction s as [|c s IH];
    cbn [JavaScript.split JavaScript.lineFeeds]; [reflexivity|].
  destruct (JavaScript.split s) as [|piece pieces]; [discriminate|].
  cbn [List.length] in IH.
  destruct (Ascii.eqb c JavaScript.lineFeed); cbn [List.length]; lia.
Qed.

(** [indexOf] finds a pattern that occurs at [a]'s end and not before. *)
Lemma index_first_occurrence (pattern a rest : string) :
  pattern <> EmptyString ->
  (forall p, p < String.length a ->
             String.substring p (String.length pattern)
                              (a ++ pattern ++ rest) <> pattern) ->
  String.index 0 pattern (a ++ pattern ++ rest) = Some (String.length a).
Proof.
  intros Hpattern Hbefore.
  pose proof (substring_middle a pattern rest) as Hhere.
  destruct (String.index 0 pattern (a ++ pattern ++ rest)) as [m|] eqn:Hm.
  - destruct (Nat.lt_trichotomy m (String.length a)) as [Hlt|[->|Hgt]].
    + destruct (Hbefore m Hlt). eapply index_correct1. exact Hm.
    + reflexivity.
    + destruct (index_correct2 _ _ _ _ Hm (String.length a)
                  (Nat.le_0_l _) Hgt Hhere).
  - destruct (index_correct3 0 (String.length a) _ _ Hm Hpattern
                (Nat.le_0_l _) Hhere).
Qed.

Lemma index_no_occurrence (pattern s : string) :
  (forall p, String.substring p (String.length pattern) s <> pattern) ->
  String.index 0 pattern s = None.
Proof.
  intros Hnone.
  destruct (String.index 0 pattern s) as [m|] eqn:Hm; [|reflexivity].
  destruct (Hnone m). eapply index_correct1. exact Hm.
Qed.

(** [slice] between two indexes inside the string. *)
Lemma slice_inside (s : string) (from to : nat) :
  from <= to -> to <= String.length s ->
  JavaScript.slice s (Z.of_nat from) (Z.of_nat to)
  = String.substring from (to - from) s.
Proof.
  intros Hfrom Hto. unfold JavaScript.slice, JavaScript.sliceIndex.
  destruct (Z.ltb_spec (Z.of_nat from) 0); [lia|].
  destruct (Z.ltb_spec (Z.of_nat to) 0); [lia|].
  rewrite !Z.min_l by lia. rewrite Z.max_l by lia.
  f_equal; lia.
Qed.

(** [slice] up to the last character. *)
Lemma slice_to_minus_one (s : string) (from : nat) :
  S from <= String.length s ->
  JavaScript.slice s (Z.of_nat from) (-1)
  = String.substring from (String.length s - 1 - from) s.
Proof.
  intros Hfrom. unfold JavaScript.slice, JavaScript.sliceIndex.
  destruct (Z.ltb_spec (Z.of_nat from) 0); [lia|].
  cbn [Z.ltb Z.compare]. rewrite Z.min_l by lia.
  rewrite !Z.max_l by lia. f_equal; lia.
Qed.

Section WithPositionLines.
Context {lines : PositionLines}.
Variable this : VSCodeEditor.

(** The number of lines before an offset inside the document is the
    number of line feeds before it. *)
Lemma toOffsetLinesCount_prefix (a b : string) :
  superCode this = (a ++ b)%string ->
  toOffsetLinesCount this (Z.of_nat (String.length a))
  = Z.of_nat (JavaScript.lineFeeds a).
Proof.
  intros Hcode. unfold toOffsetLinesCount.
  change 0%Z with (Z.of_nat 0).
  rewrite slice_inside, Hcode, Nat.sub_0_r, substring_prefix, split_length;
    [lia|lia|rewrite Hcode, length_append; lia].
Qed.


(** X11.  On a document whose opening tag is never closed, [indexOf]
    answers [-1] and [slice] counts it from the end: the code the
    refactorings get is what follows the opening tag without the last
    character of the document. *)
Theorem unclosed_script_loses_last_character (a body : string) c :
  superCode this = (a ++ "<script>" ++ body ++ String c "")%string ->
  (forall p, p < String.length a ->
             String.substring p 8 (superCode this) <> "<script>"%string) ->
  (forall p, String.substring p 9 (superCode this) <> "</script>"%string) ->
  closingTagOffset this = (-1)%Z
  /\ code this = body.
Proof.
  intros Hcode Hopening Hclosing.
  assert (Hopen : openingTagOffset this
                  = Z.of_nat (String.length (a ++ "<script>"))).
  { unfold openingTagOffset, JavaScript.indexOf, openingTag.
    rewrite Hcode, index_first_occurrence;
      [rewrite length_append; cbn; lia|discriminate|].
    intros p Hp. rewrite <- Hcode. now apply Hopening. }
  assert (Hclose : closingTagOffset this = (-1)%Z).
  { unfold closingTagOffset, JavaScript.indexOf.
    now rewrite (index_no_occurrence "</script>" _ Hclosing). }
  split; [exact Hclose|].
  unfold code. rewrite Hopen, Hclose, slice_to_minus_one.
  - rewrite Hcode.
    replace (String.length (a ++ "<script>" ++ body ++ String c "") - 1
             - String.length (a ++ "<script>"))
      with (String.length body) by (rewrite !length_append; cbn; lia).
    rewrite <- (append_assoc a "<script>").
    apply substring_middle.
  - rewrite Hcode, !length_append. cbn. lia.
Qed.

(** X13.  On a document in which the tag [<script>] does not occur as
    such (a tag with attributes, say), [indexOf] answers [-1] and the
    length of the tag is added to it: the code the refactorings get
    starts at character 7 of the document, whatever stands there, and
    runs to the first closing tag. *)
Theorem missing_opening_tag_starts_at_seven (head body rest : string) :
  superCode this = (head ++ body ++ "</script>" ++ rest)%string ->
  String.length head = 7 ->
  (forall p, String.substring p 8 (superCode this) <> "<script>"%string) ->
  (forall p, p < 7 + String.length body ->
             String.substring p 9 (superCode this) <> "</script>"%string) ->
  openingTagOffset this = 7%Z
  /\ code this = body
  /\ toOffsetLinesCount this (openingTagOffset this)
     = Z.of_nat (JavaScript.lineFeeds head).
Proof.
  intros Hcode Hhead Hopening Hclosing.
  assert (Hopen : openingTagOffset this = Z.of_nat (String.length head)).
  { unfold openingTagOffset, JavaScript.indexOf, openingTag.
    rewrite (index_no_occurrence "<script>" _ Hopening), Hhead.
    reflexivity. }
  assert (Hcode' : superCode this
                   = ((head ++ body) ++ "</script>" ++ rest)%string)
    by (rewrite Hcode, !append_assoc; reflexivity).
  assert (Hclose : closingTagOffset this
                   = Z.of_nat (String.length (head ++ body))).
  { unfold closingTagOffset, JavaScript.indexOf.
    rewrite Hcode', index_first_occurrence; [reflexivity|discriminate|].
    intros p Hp. rewrite <- Hcode'. apply Hclosing.
    rewrite length_append in Hp. lia. }
  split; [rewrite Hopen, Hhead; reflexivity|]. split.
  - unfold code. rewrite Hopen, Hclose, slice_inside.
    + rewrite Hcode.
      replace (String.length (head ++ body) - String.length head)
        with (String.length body) by (rewrite length_append; lia).
      apply substring_middle.
    + rewrite length_append. lia.
    + rewrite Hcode', (length_append (head ++ body)). lia.
  - rewrite Hopen.
    now apply (toOffsetLinesCount_prefix head
                 (body ++ "</script>" ++ rest)).
Qed.

(** X12.  When the line arithmetic of positions is such that adding
    lines undoes removing them, the selection the refactorings get,
    shifted back as [readThenWrite] does, is the selection of the editor;
    and when removing undoes adding, shifting a selection out and in
    again gives it back.  Both helpers, and the cursor positions of
    [write] and [moveCursorTo], use one and the same number of lines. *)
Theorem selection_offsets_cancel :
  (forall n p, addLines n (removeLines n p) = p) ->
  (forall n p, removeLines n (addLines n p) = p) ->
  offsetSelection this (selection this) = superSelection this
  /\ (forall s, offsetEditorSelection this (offsetSelection this s) = s)
  /\ (forall getModifications,
         exists getOffsetModifications,
           readThenWrite this (selection this) getModifications None
           = super_readThenWrite (superSelection this)
                                 getOffsetModifications None)
  /\ (forall code position,
         write this code (Some position)
         = super_write code (Some (offsetPosition this position))
         /\ moveCursorTo this position
            = super_moveCursorTo (offsetPosition this position)
         /\ offsetSelection this
              (Editor.mkSelection position position)
            = Editor.mkSelection (offsetPosition this position)
                                 (offsetPosition this position)).
Proof.
  intros Hadd Hremove.
  assert (Hback : offsetSelection this (selection this)
                  = superSelection this).
  { unfold offsetSelection, selection, offsetEditorSelection,
      Selection_fromPositions. cbn.
    rewrite !Hadd. now destruct (superSelection this). }
  split; [exact Hback|]. split; [|split].
  - intros [start end_].
    unfold offsetSelection, offsetEditorSelection, Selection_fromPositions.
    cbn. now rewrite !Hremove.
  - intros getModifications. eexists.
    unfold readThenWrite. rewrite Hback. reflexivity.
  - intros code position. repeat split.
Qed.

End WithPositionLines.

#[local] Existing Instance integerLines.


(** The sample document cut before its closing tag: the last line feed
    is lost. *)
Lemma unclosed_script_loses_last_character_witness :
  let this := mkVSCodeEditor unclosedDocument (Editor.cursorAt 2 3) in
  closingTagOffset this = (-1)%Z
  /\ code this = (Sample.newline ++ "let x;")%string.
Proof.
  intros this.
  assert (Hopening :
            forall p, p < 22 ->
                      String.substring p 8 unclosedDocument
                      <> "<script>"%string).
  { intros p Hp.
    do 22 (destruct p as [|p]; [discriminate|]). lia. }
  assert (Hclosing :
            forall p, String.substring p 9 unclosedDocument
                      <> "</script>"%string).
  { intros p.
    do 38 (destruct p as [|p]; [discriminate|]).
    destruct p; discriminate. }
  exact (unclosed_script_loses_last_character
           this ("<template></template>" ++ Sample.newline)%string
           (Sample.newline ++ "let x;")%string
           (Ascii.ascii_of_nat 10) eq_refl Hopening Hclosing).
Defined.

(** A script tag with an attribute: the code starts inside the tag. *)
Lemma missing_opening_tag_starts_at_seven_witness :
  let this :=
    mkVSCodeEditor attributeDocument (Editor.cursorAt 0 0) in
  openingTagOffset this = 7%Z
  /\ code this = (" setup>" ++ Sample.newline ++ "let x;"
                 ++ Sample.newline)%string.
Proof.
  intros this.
  assert (Hopening :
            forall p, String.substring p 8 attributeDocument
                      <> "<script>"%string).
  { intros p.
    do 32 (destruct p as [|p]; [discriminate|]).
    destruct p; discriminate. }
  assert (Hclosing :
            forall p, p < 7 + 15 ->
                      String.substring p 9 attributeDocument
                      <> "</script>"%string).
  { intros p Hp.
    do 22 (destruct p as [|p]; [discriminate|]). lia. }
  destruct (missing_opening_tag_starts_at_seven
              this "<script"%string
              (" setup>" ++ Sample.newline ++ "let x;" ++ Sample.newline)
                %string
              Sample.newline eq_refl eq_refl Hopening Hclosing)
    as (Hopen & Hbody & _).
  split; [exact Hopen|exact Hbody].
Defined.

(** Integer line arithmetic on the sample document. *)
Lemma selection_offsets_cancel_witness :
  let this := mkVSCodeEditor sampleDocument (Editor.cursorAt 2 3) in
  (forall n p, addLines n (removeLines n p) = p)
  /\ (forall n p, removeLines n (addLines n p) = p)
  /\ offsetSelection this (selection this) = Editor.cursorAt 2 3.
Proof.
  intros this.
  assert (Hadd : forall n p, addLines n (removeLines n p) = p).
  { intros n [l c]. cbn. unfold shiftLines. cbn. f_equal. lia. }
  assert (Hremove : forall n p, removeLines n (addLines n p) = p).
  { intros n [l c]. cbn. unfold shiftLines. cbn. f_equal. lia. }
  split; [exact Hadd|]. split; [exact Hremove|].
  exact (proj1 (selection_offsets_cancel this Hadd Hremove)).
Defined.

End VueVSCodeEditorFacts.
